(** * File converter server: the two encoder endpoints of [src/file/express.js]

    The development embeds the [/transcode] and [/extract-audio] request
    handlers: temp-file staging, preset resolution, construction of the
    encoder's argument vector, and the event handlers registered on the
    spawned encoder process ([error], [close], the timeout callback).

    Everything the handlers cannot decide themselves is an input of the model:
    the values returned by [Date.now()] and [Math.random()], whether [spawn]
    throws, and the sequence of events the runtime delivers. *)

From Stdlib Require Import ZArith NArith Ascii String List.
From stdpp Require Import base strings gmap list pretty.

Open Scope string_scope.
Open Scope N_scope.

(** ** Strings *)

(** A [Buffer] is a sequence of bytes. *)
Definition Buffer := list Byte.byte.

(** [s.split(sep)] for a one-character separator; never the empty list. *)
Fixpoint split (sep : ascii) (s : string) : list string :=
  match s with
  | EmptyString => [EmptyString]
  | String c r =>
      if Ascii.eqb c sep then EmptyString :: split sep r
      else match split sep r with
           | [] => [String c EmptyString]
           | x :: xs => String c x :: xs
           end
  end.

(** [l.pop()] as used on the result of [split]: the last element. *)
Definition pop (l : list string) : string := List.last l EmptyString.

(** Index of the last occurrence of [c]. *)
Fixpoint rindex (c : ascii) (s : string) : option nat :=
  match s with
  | EmptyString => None
  | String d r =>
      match rindex c r with
      | Some i => Some (S i)
      | None => if Ascii.eqb d c then Some 0%nat else None
      end
  end.

(** [path.parse(p).name] for a [p] without directory separator (the upload
    middleware hands over a base name): the part before the last dot, except
    that a leading dot and the name [..] carry no extension. *)
Definition parse_name (p : string) : string :=
  match rindex "." p with
  | None => p
  | Some O => p
  | Some i => if String.eqb p ".." then p else substring 0 i p
  end.

(** [c.toLowerCase()] on one character of the ASCII range. *)
Definition lower_ascii (c : ascii) : ascii :=
  let n := N_of_ascii c in
  if (65 <=? n) && (n <=? 90) then ascii_of_N (n + 32) else c.

(** [s.toLowerCase()] on strings of ASCII characters. Other bytes are kept
    as they are, whereas the built-in also lower-cases capitals outside
    ASCII: the two agree on every ASCII string, and on every string as far
    as equality with [mp3], [wav] and [ogg] goes. *)
Fixpoint toLowerCase (s : string) : string :=
  match s with
  | EmptyString => EmptyString
  | String c r => String (lower_ascii c) (toLowerCase r)
  end.

(** [x || dflt] on an optional string field: a missing field and the empty
    string are both falsy. *)
Definition or_default (x : option string) (dflt : string) : string :=
  match x with
  | Some s => if String.eqb s "" then dflt else s
  | None => dflt
  end.

(** ** Temp paths *)

(** One reading of the clock and of the random generator:
    [Date.now()] in milliseconds and [Math.floor(Math.random()*10000)]. *)
Record draw := Draw { now : N; rnd : N }.

(** [path.join(dir, name)] on its plain case: a normalised [dir] without
    trailing separator and a [name] that is one path segment. The built-in
    also resolves [.], [..] and doubled separators, so for a [name] that holds
    a separator the result is another path than this one; statements that
    compare or look up paths built from a caller's string carry the
    hypothesis that the string holds no separator. *)
Definition path_join (dir name : string) : string := dir +:+ "/" +:+ name.

(** [`upload-${Date.now()}-${Math.floor(Math.random()*10000)}.${ext}`] *)
Definition upload_name (d : draw) (ext : string) : string :=
  "upload-" +:+ pretty (now d) +:+ "-" +:+ pretty (rnd d) +:+ "." +:+ ext.

(** [`out-${Date.now()}-${Math.floor(Math.random()*10000)}.${format}`] *)
Definition out_name (d : draw) (format : string) : string :=
  "out-" +:+ pretty (now d) +:+ "-" +:+ pretty (rnd d) +:+ "." +:+ format.

Definition upload_path (tmpDir : string) (d : draw) (ext : string) : string :=
  path_join tmpDir (upload_name d ext).

Definition out_path (tmpDir : string) (d : draw) (format : string) : string :=
  path_join tmpDir (out_name d format).

(** [(originalname || 'input').split('.').pop()] *)
Definition inputExt (originalname : string) : string :=
  pop (split "." (or_default (Some originalname) "input")).

(** [`${path.parse(originalname).name}.${format}`] *)
Definition outName (originalname format : string) : string :=
  parse_name originalname +:+ "." +:+ format.

(** ** Preset table *)

(** What an identifier of the handlers can denote: an entry of the preset
    table, a member of [Object.prototype] (reached by a property read on an
    object literal with a key the literal does not own), or the response
    object of the web framework. *)
Inductive value :=
| Entry (h : N) (br : string)
| Inherited (key : string)
| ExpressRes.

(** The object literal [resMap] of the [/transcode] handler: its own keys. *)
Definition resMap : gmap string (N * string) :=
  list_to_map
    [("240p", (240, "400k")); ("360p", (360, "800k")); ("480p", (480, "1500k"));
     ("720p", (720, "3000k")); ("1080p", (1080, "5000k")); ("1440p", (1440, "8000k"))].

(** The string-keyed properties of [Object.prototype], which every object
    literal inherits; each of them is a function or an object, hence truthy. *)
Definition object_prototype_keys : list string :=
  ["constructor"; "__defineGetter__"; "__defineSetter__"; "hasOwnProperty";
   "__lookupGetter__"; "__lookupSetter__"; "isPrototypeOf";
   "propertyIsEnumerable"; "toString"; "valueOf"; "__proto__"; "toLocaleString"].

(** [resMap[k]]; [None] is [undefined]. *)
Definition resMap_get (k : string) : option value :=
  match resMap !! k with
  | Some (h, br) => Some (Entry h br)
  | None => if bool_decide (k ∈ object_prototype_keys) then Some (Inherited k) else None
  end.

(** [resMap[quality] || resMap['720p']]: every value found is truthy. *)
Definition resolve (quality : string) : value :=
  match resMap_get quality with
  | Some v => v
  | None => default (Entry 720 "3000k") (resMap_get "720p")
  end.

(** [res.h] and [res.br]; [None] is [undefined]. *)
Definition get_h (v : value) : option N :=
  match v with Entry h _ => Some h | _ => None end.
Definition get_br (v : value) : option string :=
  match v with Entry _ br => Some br | _ => None end.

(** ** Argument vectors *)

(** An element of an argument array: a string, or [undefined]. *)
Inductive arg := Str (s : string) | Undefined.

(** [`${x}`] for a number or [undefined]. *)
Definition template_num (x : option N) : string :=
  match x with Some n => pretty n | None => "undefined" end.

Definition arg_of (x : option string) : arg :=
  match x with Some s => Str s | None => Undefined end.

(** The array built by the [push] calls of the [/transcode] handler. *)
Definition transcode_args (inputPath outPath : string) (res : value) : list arg :=
  [Str "-y"; Str "-i"; Str inputPath]
  ++ [Str "-vf"; Str ("scale=-2:" +:+ template_num (get_h res))]
  ++ [Str "-b:v"; arg_of (get_br res)]
  ++ [Str "-c:v"; Str "libx264"; Str "-preset"; Str "medium"]
  ++ [Str "-c:a"; Str "aac"; Str "-b:a"; Str "128k"]
  ++ [Str outPath].

(** The array built by the [concat] chain of the [/extract-audio] handler. *)
Definition extract_args (inputPath outPath format : string) : list string :=
  let args := ["-y"; "-i"; inputPath; "-vn"] in
  if String.eqb format "mp3" then args ++ ["-acodec"; "libmp3lame"; "-q:a"; "2"; outPath]
  else if String.eqb format "wav" then
    args ++ ["-acodec"; "pcm_s16le"; "-ar"; "44100"; "-ac"; "2"; outPath]
  else if String.eqb format "ogg" then args ++ ["-acodec"; "libvorbis"; "-q:a"; "5"; outPath]
  else args ++ ["-c:a"; "copy"; outPath].

(** [(req.body.format || 'mp3').toLowerCase()] *)
Definition extract_format (body_format : option string) : string :=
  toLowerCase (or_default body_format "mp3").

(** ** The world of one request *)

Inductive exn :=
| TypeError (msg : string)      (* a call of something that is not a function *)
| ENOENT (path : string)        (* a file operation on a missing path *)
| HeadersSent                   (* a second [send] on the same response *)
| SpawnThrew (msg : string).    (* [spawn] itself threw *)

Definition exn_message (e : exn) : string :=
  match e with
  | TypeError msg => "TypeError: " +:+ msg
  | ENOENT p => "ENOENT: no such file or directory, " +:+ p
  | HeadersSent => "Cannot set headers after they are sent to the client"
  | SpawnThrew msg => msg
  end.

Inductive body := Text (s : string) | Bytes (b : Buffer).

Record world := World {
  files : gmap string Buffer;            (* the temp directory *)
  statusCode : N;                        (* response status, 200 until set *)
  contentType : option string;           (* set by [res.type] *)
  sent : option body;                    (* the body, once [res.send] ran *)
  console : list string;                 (* console lines, oldest first *)
  spawned : option (string * list arg);  (* command and arguments given to [spawn] *)
  timer : option N;                      (* the armed timeout and its delay in ms *)
  timedOut : bool;                       (* the [timedOut] flag of [/transcode] *)
  kills : nat;                           (* number of [ff.kill()] calls *)
  crashed : option exn                   (* an exception no handler caught *)
}.

(** A fresh request on a temp directory [fs]. *)
Definition fresh (fs : gmap string Buffer) : world :=
  World fs 200 None None [] None None false 0 None.

Definition with_files (f : gmap string Buffer → gmap string Buffer) (w : world) : world :=
  World (f (files w)) (statusCode w) (contentType w) (sent w) (console w)
        (spawned w) (timer w) (timedOut w) (kills w) (crashed w).
Definition with_statusCode (c : N) (w : world) : world :=
  World (files w) c (contentType w) (sent w) (console w)
        (spawned w) (timer w) (timedOut w) (kills w) (crashed w).
Definition with_contentType (t : string) (w : world) : world :=
  World (files w) (statusCode w) (Some t) (sent w) (console w)
        (spawned w) (timer w) (timedOut w) (kills w) (crashed w).
Definition with_sent (b : body) (w : world) : world :=
  World (files w) (statusCode w) (contentType w) (Some b) (console w)
        (spawned w) (timer w) (timedOut w) (kills w) (crashed w).
Definition with_console (line : string) (w : world) : world :=
  World (files w) (statusCode w) (contentType w) (sent w) (console w ++ [line])
        (spawned w) (timer w) (timedOut w) (kills w) (crashed w).
Definition with_spawned (cmd : string) (args : list arg) (w : world) : world :=
  World (files w) (statusCode w) (contentType w) (sent w) (console w)
        (Some (cmd, args)) (timer w) (timedOut w) (kills w) (crashed w).
Definition with_timer (t : option N) (w : world) : world :=
  World (files w) (statusCode w) (contentType w) (sent w) (console w)
        (spawned w) t (timedOut w) (kills w) (crashed w).
Definition with_timedOut (b : bool) (w : world) : world :=
  World (files w) (statusCode w) (contentType w) (sent w) (console w)
        (spawned w) (timer w) b (kills w) (crashed w).
Definition with_kill (w : world) : world :=
  World (files w) (statusCode w) (contentType w) (sent w) (console w)
        (spawned w) (timer w) (timedOut w) (S (kills w)) (crashed w).
Definition with_crashed (e : exn) (w : world) : world :=
  World (files w) (statusCode w) (contentType w) (sent w) (console w)
        (spawned w) (timer w) (timedOut w) (kills w) (Some e).

(** ** Statements that may throw *)

Inductive result (A : Type) := Ok (a : A) | Throw (e : exn).
Arguments Ok {A} a.
Arguments Throw {A} e.

Definition M (A : Type) : Type := world → result A * world.

#[global] Instance M_ret : MRet M := λ A a w, (Ok a, w).
#[global] Instance M_bind : MBind M := λ A B f m w,
  match m w with
  | (Ok a, w') => f a w'
  | (Throw e, w') => (Throw e, w')
  end.

Definition throw {A} (e : exn) : M A := λ w, (Throw e, w).
Definition modify (f : world → world) : M unit := λ w, (Ok (), f w).
Definition get {A} (f : world → A) : M A := λ w, (Ok (f w), w).

(** [try { m } catch (err) { h err }] *)
Definition try_catch {A} (m : M A) (h : exn → M A) : M A := λ w,
  match m w with
  | (Ok a, w') => (Ok a, w')
  | (Throw e, w') => h e w'
  end.

(** [try { m } catch (e) {}] *)
Definition swallow (m : M unit) : M unit := try_catch m (λ _, mret ()).

(** *** File system *)

Definition writeFileSync (p : string) (b : Buffer) : M unit :=
  modify (with_files (insert p b)).

Definition readFileSync (p : string) : M Buffer := λ w,
  match files w !! p with
  | Some b => (Ok b, w)
  | None => (Throw (ENOENT p), w)
  end.

Definition unlinkSync (p : string) : M unit := λ w,
  match files w !! p with
  | Some _ => (Ok (), with_files (delete p) w)
  | None => (Throw (ENOENT p), w)
  end.

(** [writeTempFile(buffer, ext)], with the clock and random readings [d]. *)
Definition writeTempFile (tmpDir : string) (d : draw) (buffer : Buffer) (ext : string)
  : M string :=
  let filePath := upload_path tmpDir d ext in
  writeFileSync filePath buffer ;; mret filePath.

(** *** Console, timer, process *)

Definition console_log (line : string) : M unit := modify (with_console line).
Definition setTimeout (ms : N) : M unit := modify (with_timer (Some ms)).
Definition clearTimeout : M unit := modify (with_timer None).
Definition kill : M unit := modify with_kill.

(** [spawn(cmd, args)]; [threw] is the exception it throws, if any. *)
Definition spawn (cmd : string) (args : list arg) (threw : option string) : M unit :=
  match threw with
  | Some msg => throw (SpawnThrew msg)
  | None => modify (with_spawned cmd args)
  end.

(** *** Calls on whatever [res] denotes *)

(** [recv.m]: only the response object has the methods [status], [type] and
    [send]; on a table entry or a member of [Object.prototype] the property is
    [undefined] and the call throws. On the response object the calls are
    modelled for header-legal arguments, on which they do not throw; the
    framework's [type] throws on a type with a character that is not legal in
    a header, so statements about an answer whose type is built from a
    caller's string carry the hypothesis that the string is [plain]. *)
Definition method (recv : value) (m : string) : M unit :=
  match recv with
  | ExpressRes => mret ()
  | _ => throw (TypeError ("res." +:+ m +:+ " is not a function"))
  end.

Definition res_status (recv : value) (code : N) : M unit :=
  method recv "status" ;; modify (with_statusCode code).

Definition res_type (recv : value) (t : string) : M unit :=
  method recv "type" ;; modify (with_contentType t).

Definition res_send (recv : value) (b : body) : M unit :=
  method recv "send" ;;
  s ← get sent;
  match (s : option body) with
  | Some _ => throw HeadersSent
  | None => modify (with_sent b)
  end.

(** [recv.status(code).send(text)] *)
Definition res_status_send (recv : value) (code : N) (text : string) : M unit :=
  res_status recv code ;; res_send recv (Text text).

(** ['' + code] for an exit code, which is a number or [null]. *)
Definition show_code (code : option Z) : string :=
  match code with Some z => pretty z | None => "null" end.

(** [code !== 0] *)
Definition nonzero (code : option Z) : bool :=
  match code with Some 0%Z => false | _ => true end.

(** [s.trim()] on ASCII white space; the built-in also strips the white
    space characters outside ASCII. *)
Fixpoint ltrim (s : string) : string :=
  match s with
  | String c r => if Ascii.is_space c then ltrim r else s
  | EmptyString => EmptyString
  end.
Definition trim (s : string) : string := String.rev (ltrim (String.rev (ltrim s))).

(** ** Requests, jobs and events *)

Record upload := Upload { originalname : string; buffer : Buffer }.

(** [req.file] and the two fields of [req.body] the handlers read. *)
Record request := Request {
  file : option upload;
  body_quality : option string;
  body_format : option string
}.

(** [os.tmpdir()] and the module-level [ffmpegPath]. *)
Record config := Config { tmpDir : string; ffmpegPath : option string }.

(** The variables the event handlers of one request close over. [res] is what
    the identifier [res] denotes where the handlers are defined. *)
Record job := Job {
  inputPath : string;
  outName_ : string;
  outPath : string;
  format_ : string;
  res : value
}.

(** What the runtime can deliver while the encoder is supervised. *)
Inductive event :=
| Timeout                        (* the armed timer expires *)
| Stderr (d : string)            (* a chunk on the encoder's stderr *)
| Error (err : string)           (* the [error] event of the child process *)
| Close (code : option Z)        (* the [close] event; [None] is [null] *)
| EncoderWrites (b : Buffer).    (* the encoder (re)writes its output file *)

(** An exception that leaves an event handler is caught by nobody: the
    process is gone, and nothing runs afterwards. *)
Definition run_handler (h : M unit) (w : world) : world :=
  match crashed w with
  | Some _ => w
  | None =>
      match h w with
      | (Ok _, w') => w'
      | (Throw e, w') => with_crashed e w'
      end
  end.

Module Transcode.

(** The timeout callback. *)
Definition on_timeout : M unit :=
  modify (with_timedOut true) ;;
  kill ;;
  console_log "FFmpeg timeout after 5 minutes".

Definition on_stderr (d : string) : M unit :=
  console_log ("ffmpeg: " +:+ trim d).

Definition on_error (err : string) : M unit :=
  clearTimeout ;;
  console_log ("ffmpeg spawn error " +:+ err).

Definition on_close (j : job) (code : option Z) : M unit :=
  clearTimeout ;;
  t ← get timedOut;
  if (t : bool) then
    swallow (unlinkSync (inputPath j)) ;;
    res_status_send (res j) 500 "Transcoding timed out (took more than 5 minutes)"
  else if nonzero code then
    console_log ("FFmpeg exited with code " +:+ show_code code) ;;
    swallow (unlinkSync (inputPath j)) ;;
    res_status_send (res j) 500 ("FFmpeg error code " +:+ show_code code)
  else
    try_catch
      (fileData ← readFileSync (outPath j);
       res_type (res j) "video/mp4" ;;
       res_send (res j) (Bytes fileData) ;;
       swallow (unlinkSync (inputPath j)) ;;
       swallow (unlinkSync (outPath j)))
      (λ err,
       console_log ("Error reading output file " +:+ exn_message err) ;;
       res_status_send (res j) 500 "Error reading output file").

(** The request handler up to the registration of the event handlers.
    Inside the [try] block the declaration [const res = resMap[quality] ||
    resMap['720p']] rebinds [res], so the event handlers, defined in that
    block, see the resolved table entry; the guard before the block and the
    [catch] clause after it see the response object. The two console lines
    that print an object ([req.body], [args]) are not tracked. *)
Definition handle (cfg : config) (req : request) (d1 d2 : draw) (threw : option string)
  : M (option job) :=
  console_log "POST /transcode received" ;;
  console_log ("req.file: " +:+
    match file req with
    | Some up => "present, size=" +:+ pretty (N.of_nat (length (buffer up)))
    | None => "missing"
    end) ;;
  match file req with
  | None => res_status_send ExpressRes 400 "No file uploaded" ;; mret None
  | Some up =>
      let format := "mp4" in
      let quality := or_default (body_quality req) "720p" in
      console_log ("Transcoding: format=mp4, quality=" +:+ quality) ;;
      inputPath ← writeTempFile (tmpDir cfg) d1 (buffer up) (inputExt (originalname up));
      let outName := outName (originalname up) format in
      let outPath := out_path (tmpDir cfg) d2 format in
      try_catch
        (let res := resolve quality in
         let args := transcode_args inputPath outPath res in
         spawn (or_default (ffmpegPath cfg) "ffmpeg") args threw ;;
         setTimeout (5 * 60 * 1000) ;;
         mret (Some (Job inputPath outName outPath format res)))
        (λ err,
         swallow (unlinkSync inputPath) ;;
         swallow (unlinkSync outPath) ;;
         console_log (exn_message err) ;;
         res_status_send ExpressRes 500 "Transcoding failed." ;;
         mret None)
  end.

Definition dispatch (j : job) (e : event) (w : world) : world :=
  match e with
  | Timeout =>
      match timer w with
      | Some _ => run_handler (modify (with_timer None) ;; on_timeout) w
      | None => w
      end
  | Stderr d => run_handler (on_stderr d) w
  | Error err => run_handler (on_error err) w
  | Close code => run_handler (on_close j code) w
  | EncoderWrites b =>
      match crashed w with
      | Some _ => w
      | None => with_files (insert (outPath j) b) w
      end
  end.

Definition run (j : job) (evs : list event) (w : world) : world :=
  fold_left (λ w e, dispatch j e w) evs w.

End Transcode.

Module ExtractAudio.

Definition on_stderr (d : string) : M unit :=
  console_log ("ffmpeg: " +:+ d).

Definition on_error (err : string) : M unit :=
  console_log ("ffmpeg spawn error " +:+ err).

Definition on_close (j : job) (code : option Z) : M unit :=
  if nonzero code then
    swallow (unlinkSync (inputPath j)) ;;
    res_status_send (res j) 500
      ("Audio extraction failed (ffmpeg error code " +:+ show_code code +:+ ")")
  else
    fileData ← readFileSync (outPath j);
    res_type (res j) ("audio/" +:+ format_ j) ;;
    res_send (res j) (Bytes fileData) ;;
    swallow (unlinkSync (inputPath j)) ;;
    swallow (unlinkSync (outPath j)).

(** The request handler up to the registration of the event handlers; no
    timer is set, and [res] is the response object throughout. *)
Definition handle (cfg : config) (req : request) (d1 d2 : draw) (threw : option string)
  : M (option job) :=
  match file req with
  | None => res_status_send ExpressRes 400 "No file uploaded" ;; mret None
  | Some up =>
      let format := extract_format (body_format req) in
      inputPath ← writeTempFile (tmpDir cfg) d1 (buffer up) (inputExt (originalname up));
      let outName := outName (originalname up) format in
      let outPath := out_path (tmpDir cfg) d2 format in
      try_catch
        (let args := extract_args inputPath outPath format in
         spawn (or_default (ffmpegPath cfg) "ffmpeg") (Str <$> args) threw ;;
         mret (Some (Job inputPath outName outPath format ExpressRes)))
        (λ err,
         swallow (unlinkSync inputPath) ;;
         swallow (unlinkSync outPath) ;;
         console_log (exn_message err) ;;
         res_status_send ExpressRes 500 "Audio extraction failed." ;;
         mret None)
  end.

Definition dispatch (j : job) (e : event) (w : world) : world :=
  match e with
  | Timeout => w
  | Stderr d => run_handler (on_stderr d) w
  | Error err => run_handler (on_error err) w
  | Close code => run_handler (on_close j code) w
  | EncoderWrites b =>
      match crashed w with
      | Some _ => w
      | None => with_files (insert (outPath j) b) w
      end
  end.

Definition run (j : job) (evs : list event) (w : world) : world :=
  fold_left (λ w e, dispatch j e w) evs w.

End ExtractAudio.

(** A whole request: the handler, then the events. The job is [None] when the
    handler answered on its own (no upload, or [spawn] threw). *)
Definition transcode_request (cfg : config) (req : request) (d1 d2 : draw)
    (threw : option string) (evs : list event) (fs : gmap string Buffer)
  : option job * world :=
  match Transcode.handle cfg req d1 d2 threw (fresh fs) with
  | (Ok (Some j), w) => (Some j, Transcode.run j evs w)
  | (_, w) => (None, w)
  end.

Definition extract_request (cfg : config) (req : request) (d1 d2 : draw)
    (threw : option string) (evs : list event) (fs : gmap string Buffer)
  : option job * world :=
  match ExtractAudio.handle cfg req d1 d2 threw (fresh fs) with
  | (Ok (Some j), w) => (Some j, ExtractAudio.run j evs w)
  | (_, w) => (None, w)
  end.

(** ** Auxiliary definitions for the statements *)

(** Does the character [c] occur in [s]? *)
Fixpoint occurs (c : ascii) (s : string) : bool :=
  match s with
  | EmptyString => false
  | String d r => Ascii.eqb d c || occurs c r
  end.

(** Two characters that are equal up to the case of an ASCII letter. *)
Definition case_variant (a b : ascii) : Prop :=
  a = b
  ∨ (65 ≤ N_of_ascii a ≤ 90 ∧ N_of_ascii b = N_of_ascii a + 32)
  ∨ (65 ≤ N_of_ascii b ≤ 90 ∧ N_of_ascii a = N_of_ascii b + 32).

(** Two strings that are equal up to the case of their ASCII letters. *)
Fixpoint same_ignoring_case (s t : string) : Prop :=
  match s, t with
  | EmptyString, EmptyString => True
  | String a s', String b t' => case_variant a b ∧ same_ignoring_case s' t'
  | _, _ => False
  end.

(** The job and the world the [/extract-audio] handler leaves behind once the
    encoder is spawned. *)
Definition extract_job (cfg : config) (up : upload) (f : option string) (d1 d2 : draw) : job :=
  let format := extract_format f in
  Job (upload_path (tmpDir cfg) d1 (inputExt (originalname up)))
      (outName (originalname up) format)
      (out_path (tmpDir cfg) d2 format) format ExpressRes.

Definition extract_world (cfg : config) (up : upload) (f : option string) (d1 d2 : draw)
    (fs : gmap string Buffer) : world :=
  let j := extract_job cfg up f d1 d2 in
  with_spawned (or_default (ffmpegPath cfg) "ffmpeg")
    (Str <$> extract_args (inputPath j) (outPath j) (format_ j))
    (with_files (insert (inputPath j) (buffer up)) (fresh fs)).

(** The same for the [/transcode] handler. *)
Definition transcode_job (cfg : config) (up : upload) (q : option string) (d1 d2 : draw) : job :=
  Job (upload_path (tmpDir cfg) d1 (inputExt (originalname up)))
      (outName (originalname up) "mp4")
      (out_path (tmpDir cfg) d2 "mp4") "mp4" (resolve (or_default q "720p")).

Definition transcode_world (cfg : config) (up : upload) (q : option string) (d1 d2 : draw)
    (fs : gmap string Buffer) : world :=
  let j := transcode_job cfg up q d1 d2 in
  with_timer (Some 300000)
    (with_spawned (or_default (ffmpegPath cfg) "ffmpeg")
      (transcode_args (inputPath j) (outPath j) (res j))
      (with_files (insert (inputPath j) (buffer up))
        (with_console ("Transcoding: format=mp4, quality=" +:+ or_default q "720p")
          (with_console ("req.file: present, size=" +:+ pretty (N.of_nat (length (buffer up))))
            (with_console "POST /transcode received" (fresh fs)))))).

(** The process is still running: neither [close] nor [error] is delivered. *)
Definition still_running (e : event) : bool :=
  match e with
  | Close _ | Error _ => false
  | _ => true
  end.

(** ** The image endpoint *)

(** [`${x}`] for a string or [undefined]. *)
Definition template_str (x : option string) : string :=
  match x with Some s => s | None => "undefined" end.

Module Convert.

(** The [/convert] handler. What [await sharp(buffer).toFormat(format)
    .toBuffer()] gives, a buffer or an exception, is decided by the image
    library: [sharp] is that outcome as a function of the two values handed
    to it. The read of [req.file.buffer] stands before the [try] block. *)
Definition handle (req : request) (sharp : Buffer → option string → result Buffer)
  : M unit :=
  let format := body_format req in
  match file req with
  | None => throw (TypeError "Cannot read properties of undefined (reading 'buffer')")
  | Some up =>
      let buffer := buffer up in
      try_catch
        (convertedBuffer ← (λ w, (sharp buffer format, w));
         res_type ExpressRes ("image/" +:+ template_str format) ;;
         res_send ExpressRes (Bytes (convertedBuffer : Buffer)))
        (λ error, res_status_send ExpressRes 500 "Conversion failed.")
  end.

End Convert.

(** ** Further definitions for the statements *)

(** A printable ASCII character other than the path separator: legal in a
    header value, left alone by [path.join], and lower-cased by
    [toLowerCase] as the built-in does. *)
Definition plain_char (c : ascii) : bool :=
  (32 <=? N_of_ascii c) && (N_of_ascii c <=? 126) && negb (Ascii.eqb c "/").

(** A string of such characters. *)
Fixpoint plain (s : string) : bool :=
  match s with
  | EmptyString => true
  | String c r => plain_char c && plain r
  end.

(** An upper-case ASCII letter. *)
Definition is_upper (c : ascii) : bool :=
  (65 <=? N_of_ascii c) && (N_of_ascii c <=? 90).

(** Does [s] hold an upper-case ASCII letter? *)
Fixpoint has_upper (s : string) : bool :=
  match s with
  | EmptyString => false
  | String c r => is_upper c || has_upper r
  end.

(** No timer can fire any more: it is cleared, or the process is gone. *)
Definition disarmed (w : world) : Prop :=
  timer w = None ∨ is_Some (crashed w).

(** The flag and the signal count of a [/transcode] job go together: either
    the timer never fired, or it fired once and is gone. *)
Definition signal_state (w : world) : Prop :=
  (kills w = 0%nat ∧ timedOut w = false)
  ∨ (kills w = 1%nat ∧ timedOut w = true ∧ timer w = None).

(** The scale and bitrate arguments [/transcode] can hand to the encoder. *)
Definition transcode_settings : list (string * arg) :=
  [ ("scale=-2:240", Str "400k"); ("scale=-2:360", Str "800k");
    ("scale=-2:480", Str "1500k"); ("scale=-2:720", Str "3000k");
    ("scale=-2:1080", Str "5000k"); ("scale=-2:1440", Str "8000k");
    ("scale=-2:undefined", Undefined) ].

(** Unfolds the statements of the handlers down to functions on worlds. *)
Ltac unfold_M :=
  unfold res_status_send, res_status, res_type, res_send, method, swallow, try_catch,
    unlinkSync, readFileSync, writeTempFile, writeFileSync, console_log, setTimeout,
    clearTimeout, kill, spawn, throw, modify, get, mbind, M_bind, mret, M_ret in *.

(** * Properties *)

Example split_ex : split "." "my.clip.mov" = ["my"; "clip"; "mov"].
Proof. reflexivity. Qed.
Example inputExt_ex : inputExt "my.clip.mov" = "mov" ∧ inputExt "" = "input" ∧ inputExt "raw" = "raw".
Proof. repeat split; reflexivity. Qed.
Example parse_name_ex :
  parse_name "my.clip.mov" = "my.clip" ∧ parse_name ".bashrc" = ".bashrc"
  ∧ parse_name ".." = ".." ∧ parse_name "..." = ".." ∧ parse_name "raw" = "raw".
Proof. repeat split; reflexivity. Qed.
Example upload_path_ex :
  upload_path "/tmp" (Draw 1700000000000 42) "mov" = "/tmp/upload-1700000000000-42.mov".
Proof. vm_compute. reflexivity. Qed.
Example resolve_ex : resolve "480p" = Entry 480 "1500k" ∧ resolve "potato" = Entry 720 "3000k".
Proof. split; vm_compute; reflexivity. Qed.
Example toLowerCase_ex : toLowerCase "WaV" = "wav".
Proof. reflexivity. Qed.


(** ** Decimal rendering and separators *)

Lemma pretty_N_char_digit x c :
  (N_of_ascii c <? 48) || (57 <? N_of_ascii c) = true → pretty_N_char x ≠ c.
Proof.
  intros Hc <-. unfold pretty_N_char in Hc.
  repeat case_match; vm_compute in Hc; discriminate.
Qed.

Lemma occurs_pretty_N_go c x s :
  (N_of_ascii c <? 48) || (57 <? N_of_ascii c) = true →
  occurs c (pretty_N_go x s) = occurs c s.
Proof.
  intros Hc. revert s. induction (N.lt_wf_0 x) as [x _ IH]. intros s.
  destruct (decide (x = 0)) as [->|Hx].
  - by rewrite pretty_N_go_0.
  - rewrite pretty_N_go_step by lia. rewrite IH by (apply N.div_lt; lia).
    simpl. destruct (Ascii.eqb_spec (pretty_N_char (x `mod` 10)) c) as [E|_]; [|done].
    by destruct (pretty_N_char_digit _ _ Hc E).
Qed.

(** The decimal rendering of a number holds digits only. *)
Lemma occurs_pretty_N c (n : N) :
  (N_of_ascii c <? 48) || (57 <? N_of_ascii c) = true → occurs c (pretty n) = false.
Proof.
  intros Hc. unfold pretty, pretty_N. case_decide.
  - change (occurs c "0") with (Ascii.eqb "0" c || false).
    destruct (Ascii.eqb_spec "0" c) as [<-|_]; [discriminate Hc|done].
  - by rewrite occurs_pretty_N_go.
Qed.

(** A separator that occurs in neither prefix cuts both strings alike. *)
Lemma append_sep_inj c a1 a2 r1 r2 :
  occurs c a1 = false → occurs c a2 = false →
  a1 +:+ String c r1 = a2 +:+ String c r2 → a1 = a2 ∧ r1 = r2.
Proof.
  revert a2. induction a1 as [|x a1 IH]; intros [|y a2]; simpl; intros H1 H2 E.
  - by inversion E.
  - inversion E; subst. by rewrite Ascii.eqb_refl in H2.
  - inversion E; subst. by rewrite Ascii.eqb_refl in H1.
  - apply orb_false_elim in H1 as [_ H1]. apply orb_false_elim in H2 as [_ H2].
    inversion E; subst. destruct (IH a2 H1 H2) as [-> ->]; done.
Qed.

(** The stamp [<now>-<rnd>.<ext>] of a temp name determines its three parts. *)
Lemma stamp_inj (d1 d2 : draw) e1 e2 :
  pretty (now d1) +:+ "-" +:+ pretty (rnd d1) +:+ "." +:+ e1
  = pretty (now d2) +:+ "-" +:+ pretty (rnd d2) +:+ "." +:+ e2 →
  now d1 = now d2 ∧ rnd d1 = rnd d2 ∧ e1 = e2.
Proof.
  intros E. apply append_sep_inj in E as [En E]; [|by apply occurs_pretty_N..].
  apply append_sep_inj in E as [Er E]; [|by apply occurs_pretty_N..].
  split_and!; [by apply (inj pretty)|by apply (inj pretty)|done].
Qed.

Lemma upload_path_inj tmp d1 d2 e1 e2 :
  upload_path tmp d1 e1 = upload_path tmp d2 e2 → now d1 = now d2 ∧ rnd d1 = rnd d2 ∧ e1 = e2.
Proof.
  unfold upload_path, path_join, upload_name. intros E.
  apply (inj (String.append tmp)) in E. apply stamp_inj. by simplify_eq/=.
Qed.

Lemma out_path_inj tmp d1 d2 e1 e2 :
  out_path tmp d1 e1 = out_path tmp d2 e2 → now d1 = now d2 ∧ rnd d1 = rnd d2 ∧ e1 = e2.
Proof.
  unfold out_path, path_join, out_name. intros E.
  apply (inj (String.append tmp)) in E. apply stamp_inj. by simplify_eq/=.
Qed.

(** An input path and an output path differ in their prefix. *)
Lemma upload_out_distinct tmp d1 e1 d2 e2 : upload_path tmp d1 e1 ≠ out_path tmp d2 e2.
Proof.
  unfold upload_path, out_path, path_join, upload_name, out_name. intros E.
  apply (inj (String.append tmp)) in E. simpl in E. discriminate E.
Qed.

(** ** The handlers up to the spawn *)

Lemma extract_handle_spawned cfg up q f d1 d2 fs :
  ExtractAudio.handle cfg (Request (Some up) q f) d1 d2 None (fresh fs)
  = (Ok (Some (extract_job cfg up f d1 d2)), extract_world cfg up f d1 d2 fs).
Proof. reflexivity. Qed.

Lemma transcode_handle_spawned cfg up q f d1 d2 fs :
  Transcode.handle cfg (Request (Some up) q f) d1 d2 None (fresh fs)
  = (Ok (Some (transcode_job cfg up q d1 d2)), transcode_world cfg up q d1 d2 fs).
Proof. reflexivity. Qed.

(** ** Temp paths (C3) *)

(** C3, as stated, fails: two requests that upload a file of the same name
    and read the same millisecond and the same random number are given the
    same input path and the same output path, and the second upload
    overwrites the first. *)
Lemma C3_equal_draws_collide :
  let cfg := Config "/tmp" None in
  let d1 := Draw 1700000000000 42 in
  let d2 := Draw 1700000000000 4711 in
  let a := Upload "clip.mov" [Byte.x01] in
  let b := Upload "clip.mov" [Byte.x02] in
  ∃ ja wa jb wb,
    ExtractAudio.handle cfg (Request (Some a) None None) d1 d2 None (fresh ∅)
      = (Ok (Some ja), wa)
    ∧ ExtractAudio.handle cfg (Request (Some b) None None) d1 d2 None (fresh (files wa))
      = (Ok (Some jb), wb)
    ∧ inputPath ja = inputPath jb
    ∧ outPath ja = outPath jb
    ∧ files wb !! inputPath ja = Some [Byte.x02].
Proof.
  intros cfg d1 d2 a b.
  exists (extract_job cfg a None d1 d2), (extract_world cfg a None d1 d2 ∅),
    (extract_job cfg b None d1 d2),
    (extract_world cfg b None d1 d2 (files (extract_world cfg a None d1 d2 ∅))).
  split_and!; [reflexivity|reflexivity|reflexivity|reflexivity|].
  vm_compute. reflexivity.
Qed.

(** C3, amended: for extensions that hold no path separator, two input
    paths, and likewise two output paths, are distinct as soon as the two
    allocations differ in the millisecond read, in the random number drawn or
    in the extension; and an input path is never an output path. *)
Theorem C3_paths_distinct_when_draws_differ tmp (d1 d2 : draw) e1 e2 :
  occurs "/" e1 = false → occurs "/" e2 = false →
  now d1 ≠ now d2 ∨ rnd d1 ≠ rnd d2 ∨ e1 ≠ e2 →
  upload_path tmp d1 e1 ≠ upload_path tmp d2 e2
  ∧ out_path tmp d1 e1 ≠ out_path tmp d2 e2
  ∧ upload_path tmp d1 e1 ≠ out_path tmp d2 e2
  ∧ upload_path tmp d1 e1 ≠ out_path tmp d1 e2.
Proof.
  intros _ _ Hd. split_and!.
  - intros E. apply upload_path_inj in E. tauto.
  - intros E. apply out_path_inj in E. tauto.
  - apply upload_out_distinct.
  - apply upload_out_distinct.
Qed.

Lemma C3_paths_distinct_witness :
  upload_path "/tmp" (Draw 1700000000000 42) "mov"
    ≠ upload_path "/tmp" (Draw 1700000000000 43) "mov"
  ∧ out_path "/tmp" (Draw 1700000000000 42) "mov"
    ≠ out_path "/tmp" (Draw 1700000000000 43) "mov"
  ∧ upload_path "/tmp" (Draw 1700000000000 42) "mov"
    ≠ out_path "/tmp" (Draw 1700000000000 43) "mov"
  ∧ upload_path "/tmp" (Draw 1700000000000 42) "mov"
    ≠ out_path "/tmp" (Draw 1700000000000 42) "mov".
Proof.
  apply (C3_paths_distinct_when_draws_differ "/tmp"
           (Draw 1700000000000 42) (Draw 1700000000000 43) "mov" "mov");
    [reflexivity|reflexivity|].
  right. left. simpl. lia.
Defined.

(** ** Preset resolution (C4) *)

Lemma resMap_get_720p : resMap_get "720p" = Some (Entry 720 "3000k").
Proof. vm_compute. reflexivity. Qed.

(** The six presets resolve to their table entries, and a missing or empty
    selector to the entry of [720p]. *)
Lemma resolve_presets :
  resolve "240p" = Entry 240 "400k" ∧ resolve "360p" = Entry 360 "800k"
  ∧ resolve "480p" = Entry 480 "1500k" ∧ resolve "720p" = Entry 720 "3000k"
  ∧ resolve "1080p" = Entry 1080 "5000k" ∧ resolve "1440p" = Entry 1440 "8000k"
  ∧ resolve (or_default None "720p") = Entry 720 "3000k"
  ∧ resolve (or_default (Some "") "720p") = Entry 720 "3000k".
Proof. split_and!; vm_compute; reflexivity. Qed.

(** A selector that is neither a preset nor a key of [Object.prototype]
    resolves to the entry of [720p]. *)
Lemma resolve_unrecognized q :
  q ∉ ["240p"; "360p"; "480p"; "720p"; "1080p"; "1440p"] →
  q ∉ object_prototype_keys →
  resolve q = Entry 720 "3000k".
Proof.
  intros Hq Hp. unfold resolve. rewrite resMap_get_720p. unfold resMap_get.
  assert (resMap !! q = None) as ->.
  { unfold resMap. apply not_elem_of_list_to_map_1. exact Hq. }
  by rewrite bool_decide_eq_false_2.
Qed.

(** What [resolve] returns is never the response object. *)
Lemma resolve_not_response q : resolve q ≠ ExpressRes.
Proof.
  unfold resolve. destruct (resMap_get q) as [v|] eqn:E.
  - unfold resMap_get in E. destruct (resMap !! q) as [[h br]|]; [by simplify_eq|].
    case_bool_decide; by simplify_eq.
  - by rewrite resMap_get_720p.
Qed.

(** C4 fails on a selector that names a property every object inherits: the
    lookup finds the inherited member, the fallback to [720p] is not taken,
    and the argument vector is built from the [undefined] height and bitrate
    of that member. *)
Theorem C4_inherited_selector_escapes_default i o :
  resolve "constructor" = Inherited "constructor"
  ∧ resolve "constructor" ≠ Entry 720 "3000k"
  ∧ transcode_args i o (resolve "constructor")
    = [Str "-y"; Str "-i"; Str i; Str "-vf"; Str "scale=-2:undefined"; Str "-b:v"; Undefined;
       Str "-c:v"; Str "libx264"; Str "-preset"; Str "medium";
       Str "-c:a"; Str "aac"; Str "-b:a"; Str "128k"; Str o].
Proof.
  assert (resolve "constructor" = Inherited "constructor") as E
    by (vm_compute; reflexivity).
  rewrite E. split_and!; [done|done|reflexivity].
Qed.

(** ** Argument vectors (C5, C6) *)

#[local] Arguments upload_path : simpl never.
#[local] Arguments out_path : simpl never.
#[local] Arguments extract_format : simpl never.
#[local] Arguments extract_args : simpl never.
#[local] Arguments transcode_args : simpl never.
#[local] Arguments inputExt : simpl never.
#[local] Arguments outName : simpl never.
#[local] Arguments or_default : simpl never.
#[local] Arguments show_code : simpl never.
#[local] Arguments resolve : simpl never.
#[local] Arguments String.append : simpl never.

(** C5: for a selector that resolves to the entry (h, br), the encoder is
    spawned with exactly the sixteen arguments of the claim, the input being
    the staged upload and the output an [.mp4] temp path whatever the upload's
    extension; the selector [480p] gives height 480 and bitrate [1500k]. *)
Theorem C5_transcode_argument_vector cfg up q d1 d2 fs h br :
  resolve (or_default q "720p") = Entry h br →
  let inp := upload_path (tmpDir cfg) d1 (inputExt (originalname up)) in
  let out := out_path (tmpDir cfg) d2 "mp4" in
  spawned (transcode_request cfg (Request (Some up) q None) d1 d2 None [] fs).2
  = Some (or_default (ffmpegPath cfg) "ffmpeg",
          Str <$> ["-y"; "-i"; inp; "-vf"; "scale=-2:" +:+ pretty h; "-b:v"; br;
                   "-c:v"; "libx264"; "-preset"; "medium";
                   "-c:a"; "aac"; "-b:a"; "128k"; out])
  ∧ spawned (transcode_request cfg (Request (Some up) (Some "480p") None) d1 d2 None [] fs).2
  = Some (or_default (ffmpegPath cfg) "ffmpeg",
          Str <$> ["-y"; "-i"; inp; "-vf"; "scale=-2:480"; "-b:v"; "1500k";
                   "-c:v"; "libx264"; "-preset"; "medium";
                   "-c:a"; "aac"; "-b:a"; "128k"; out]).
Proof.
  intros Hres inp out. unfold transcode_request. rewrite !transcode_handle_spawned.
  unfold transcode_world, transcode_job. cbn [Transcode.run fold_left snd spawned
    with_timer with_spawned inputPath outPath res].
  rewrite Hres.
  assert (resolve (or_default (Some "480p") "720p") = Entry 480 "1500k") as ->
    by (vm_compute; reflexivity).
  split; reflexivity.
Qed.

Lemma C5_transcode_argument_vector_witness :
  let cfg := Config "/tmp" None in
  let up := Upload "holiday.mkv" [Byte.x00] in
  let d1 := Draw 1700000000000 42 in
  let d2 := Draw 1700000000001 4711 in
  spawned (transcode_request cfg (Request (Some up) (Some "1080p") None) d1 d2 None [] ∅).2
  = Some ("ffmpeg",
          Str <$> ["-y"; "-i"; "/tmp/upload-1700000000000-42.mkv"; "-vf"; "scale=-2:1080";
                   "-b:v"; "5000k"; "-c:v"; "libx264"; "-preset"; "medium";
                   "-c:a"; "aac"; "-b:a"; "128k"; "/tmp/out-1700000000001-4711.mp4"]).
Proof.
  intros cfg up d1 d2.
  pose proof (C5_transcode_argument_vector cfg up (Some "1080p") d1 d2 ∅ 1080 "5000k") as H.
  destruct H as [H _]; [vm_compute; reflexivity|].
  rewrite H. vm_compute. reflexivity.
Defined.

(** C6: the encoder of an audio extraction is spawned with the vector built
    for the lower-cased format, and every such vector starts with the input
    and [-vn]; [mp3], [wav] and [ogg] add their fixed codec parameters, and
    any other format adds [-c:a copy] and nothing else before the output
    path. *)
Theorem C6_extract_argument_vector cfg up q f d1 d2 fs i o format :
  format ≠ "mp3" → format ≠ "wav" → format ≠ "ogg" →
  spawned (extract_request cfg (Request (Some up) q f) d1 d2 None [] fs).2
  = Some (or_default (ffmpegPath cfg) "ffmpeg",
          Str <$> extract_args (upload_path (tmpDir cfg) d1 (inputExt (originalname up)))
                               (out_path (tmpDir cfg) d2 (extract_format f))
                               (extract_format f))
  ∧ extract_args i o "mp3" = ["-y"; "-i"; i; "-vn"; "-acodec"; "libmp3lame"; "-q:a"; "2"; o]
  ∧ extract_args i o "wav"
    = ["-y"; "-i"; i; "-vn"; "-acodec"; "pcm_s16le"; "-ar"; "44100"; "-ac"; "2"; o]
  ∧ extract_args i o "ogg" = ["-y"; "-i"; i; "-vn"; "-acodec"; "libvorbis"; "-q:a"; "5"; o]
  ∧ extract_args i o format = ["-y"; "-i"; i; "-vn"; "-c:a"; "copy"; o].
Proof.
  intros H1 H2 H3. split_and!; try reflexivity.
  unfold extract_args.
  apply String.eqb_neq in H1, H2, H3. by rewrite H1, H2, H3.
Qed.

Lemma C6_extract_argument_vector_witness :
  spawned (extract_request (Config "/tmp" None)
             (Request (Some (Upload "talk.mp4" [Byte.x00])) None (Some "FLAC"))
             (Draw 1700000000000 42) (Draw 1700000000001 4711) None [] ∅).2
  = Some ("ffmpeg",
          Str <$> ["-y"; "-i"; "/tmp/upload-1700000000000-42.mp4"; "-vn"; "-c:a"; "copy";
                   "/tmp/out-1700000000001-4711.flac"]).
Proof.
  pose proof (C6_extract_argument_vector (Config "/tmp" None)
    (Upload "talk.mp4" [Byte.x00]) None (Some "FLAC")
    (Draw 1700000000000 42) (Draw 1700000000001 4711) ∅
    "/tmp/upload-1700000000000-42.mp4" "/tmp/out-1700000000001-4711.flac" "flac") as H.
  destruct H as (Hs & _ & _ & _ & Ha); [discriminate..|].
  rewrite Hs. vm_compute. reflexivity.
Defined.

(** ** Target format (C10) *)

Lemma lower_ascii_variant a b : case_variant a b → lower_ascii a = lower_ascii b.
Proof.
  assert (∀ x y, 65 ≤ N_of_ascii x ≤ 90 → N_of_ascii y = N_of_ascii x + 32 →
            lower_ascii x = lower_ascii y) as Hup.
  { intros x y Hx Hy. unfold lower_ascii.
    destruct (N.leb_spec 65 (N_of_ascii x)); [|lia].
    destruct (N.leb_spec (N_of_ascii x) 90); [|lia].
    destruct (N.leb_spec (N_of_ascii y) 90); [lia|].
    rewrite andb_false_r. simpl. by rewrite <-Hy, ascii_N_embedding. }
  intros [->|[[Ha Hb]|[Hb Ha]]]; [done|by apply Hup|symmetry; by apply Hup].
Qed.

Lemma toLowerCase_ignores_case s t :
  same_ignoring_case s t → toLowerCase s = toLowerCase t.
Proof.
  revert t. induction s as [|a s IH]; intros [|b t]; simpl; try done.
  intros [Hab Hst]. by rewrite (lower_ascii_variant a b Hab), (IH t Hst).
Qed.

Lemma extract_format_ignores_case f g :
  same_ignoring_case f g → extract_format (Some f) = extract_format (Some g).
Proof.
  intros H. unfold extract_format, or_default.
  destruct f as [|a f], g as [|b g]; try done.
  exact (toLowerCase_ignores_case (String a f) (String b g) H).
Qed.

(** C10: a request without a format field (or with an empty one) is an [mp3]
    request, and two requests whose format fields differ only in the case of
    their letters run identically: same arguments, same answer, same content
    type. *)
Theorem C10_format_default_and_case_insensitive cfg up q d1 d2 threw evs fs f g :
  same_ignoring_case f g →
  extract_format None = "mp3"
  ∧ extract_format (Some "") = "mp3"
  ∧ extract_format (Some f) = toLowerCase (or_default (Some f) "mp3")
  ∧ extract_request cfg (Request (Some up) q None) d1 d2 threw evs fs
    = extract_request cfg (Request (Some up) q (Some "mp3")) d1 d2 threw evs fs
  ∧ extract_request cfg (Request (Some up) q (Some f)) d1 d2 threw evs fs
    = extract_request cfg (Request (Some up) q (Some g)) d1 d2 threw evs fs.
Proof.
  intros H. split_and!; try reflexivity.
  unfold extract_request, ExtractAudio.handle. cbn [file body_format].
  by rewrite (extract_format_ignores_case f g H).
Qed.

Lemma C10_format_witness :
  let cfg := Config "/tmp" None in
  let up := Upload "talk.mp4" [Byte.x00] in
  let d1 := Draw 1700000000000 42 in
  let d2 := Draw 1700000000001 4711 in
  let evs := [EncoderWrites [Byte.x07]; Close (Some 0%Z)] in
  extract_request cfg (Request (Some up) None (Some "WaV")) d1 d2 None evs ∅
  = extract_request cfg (Request (Some up) None (Some "wav")) d1 d2 None evs ∅
  ∧ contentType
      (extract_request cfg (Request (Some up) None (Some "WaV")) d1 d2 None evs ∅).2
    = Some "audio/wav".
Proof.
  intros cfg up d1 d2 evs. split.
  - refine (proj2 (proj2 (proj2 (proj2
      (C10_format_default_and_case_insensitive cfg up None d1 d2 None evs ∅ "WaV" "wav" _))))).
    simpl. unfold case_variant. simpl. split_and!; auto; right; lia.
  - vm_compute. reflexivity.
Defined.

(** ** The event handlers *)

(** [/extract-audio], [close] with a non-zero code: the input file is
    removed and nothing else is touched in the temp directory. *)
Lemma extract_close_nonzero_files j w code :
  crashed w = None → nonzero code = true →
  files (ExtractAudio.dispatch j (Close code) w) = delete (inputPath j) (files w).
Proof.
  intros Hc Hn. destruct w as [fs st ct sn co sp ti tf ki cr]. simpl in *. subst.
  unfold run_handler, ExtractAudio.on_close. rewrite Hn. unfold_M. simpl.
  destruct (fs !! inputPath j) eqn:E; simpl.
  - destruct (res j); simpl; try reflexivity. destruct sn; reflexivity.
  - rewrite delete_id by done. destruct (res j); simpl; try reflexivity.
    destruct sn; reflexivity.
Qed.

(** [/extract-audio], [close] with a non-zero code on a request not yet
    answered: the answer is status 500 with a text that carries the code. *)
Lemma extract_close_nonzero_response j w code :
  crashed w = None → sent w = None → res j = ExpressRes → nonzero code = true →
  let w' := ExtractAudio.dispatch j (Close code) w in
  statusCode w' = 500
  ∧ sent w' = Some (Text ("Audio extraction failed (ffmpeg error code "
                          +:+ show_code code +:+ ")"))
  ∧ contentType w' = contentType w
  ∧ crashed w' = None.
Proof.
  intros Hc Hs Hr Hn. destruct w as [fs st ct sn co sp ti tf ki cr]. simpl in *. subst.
  unfold run_handler, ExtractAudio.on_close. rewrite Hn, Hr. unfold_M. simpl.
  destruct (fs !! inputPath j); simpl; done.
Qed.

(** [/extract-audio], [close] with code 0 and a readable output file: the
    answer is status 200, type [audio/<format>], and the bytes of the file;
    both temp files are removed. *)
Lemma extract_close_success j w data :
  crashed w = None → sent w = None → statusCode w = 200 → res j = ExpressRes →
  inputPath j ≠ outPath j →
  files w !! outPath j = Some data →
  let w' := ExtractAudio.dispatch j (Close (Some 0%Z)) w in
  statusCode w' = 200
  ∧ contentType w' = Some ("audio/" +:+ format_ j)
  ∧ sent w' = Some (Bytes data)
  ∧ files w' = delete (outPath j) (delete (inputPath j) (files w))
  ∧ crashed w' = None.
Proof.
  intros Hc Hs Hst Hr Hne Ho. destruct w as [fs st ct sn co sp ti tf ki cr].
  simpl in *. subst.
  unfold run_handler, ExtractAudio.on_close. rewrite Hr. unfold_M. simpl. rewrite Ho. simpl.
  destruct (fs !! inputPath j) eqn:E; simpl.
  - rewrite lookup_delete_ne by done. rewrite Ho. simpl. done.
  - rewrite Ho. simpl. by rewrite (delete_id fs (inputPath j)).
Qed.

(** [/transcode], [close]: where the handler is defined [res] is the resolved
    table entry, so the first call on it throws and nobody catches it. The
    input file is removed on the timed-out and the failed branch, and nothing
    is removed on the branch that read the output. *)
Lemma transcode_close j w code :
  crashed w = None → res j ≠ ExpressRes →
  let w' := Transcode.dispatch j (Close code) w in
  sent w' = sent w
  ∧ statusCode w' = statusCode w
  ∧ contentType w' = contentType w
  ∧ crashed w' = Some (TypeError "res.status is not a function")
  ∧ files w' = (if timedOut w || nonzero code then delete (inputPath j) (files w)
                else files w)
  ∧ kills w' = kills w
  ∧ timedOut w' = timedOut w.
Proof.
  intros Hc Hr. destruct w as [fs st ct sn co sp ti tf ki cr]. simpl in *. subst.
  unfold run_handler, Transcode.on_close. unfold_M. simpl.
  destruct tf; simpl.
  - destruct (fs !! inputPath j) eqn:E; simpl; destruct (res j); simpl;
      rewrite ?delete_id by done; done.
  - destruct (nonzero code); simpl.
    + destruct (fs !! inputPath j) eqn:E; simpl; destruct (res j); simpl;
        rewrite ?delete_id by done; done.
    + destruct (fs !! outPath j) eqn:E; simpl; destruct (res j); simpl; done.
Qed.

(** The handlers never look at the output name computed from the upload. *)
Lemma extract_run_outName_irrelevant i n n' o f r evs w :
  ExtractAudio.run (Job i n o f r) evs w = ExtractAudio.run (Job i n' o f r) evs w.
Proof.
  revert w. induction evs as [|e evs IH]; intros w; [done|].
  change (ExtractAudio.run (Job i n o f r) evs (ExtractAudio.dispatch (Job i n o f r) e w)
          = ExtractAudio.run (Job i n' o f r) evs (ExtractAudio.dispatch (Job i n' o f r) e w)).
  rewrite IH. by destruct e.
Qed.

(** While the encoder of an [/extract-audio] job keeps running, no event makes
    the job arm a timer, signal the process or answer the request. *)
Lemma extract_dispatch_running j e w :
  still_running e = true →
  let w' := ExtractAudio.dispatch j e w in
  timer w' = timer w ∧ kills w' = kills w ∧ sent w' = sent w.
Proof.
  intros He. destruct w as [fs st ct sn co sp ti tf ki cr].
  destruct e; try discriminate He; simpl; unfold run_handler; simpl;
    destruct cr; simpl; done.
Qed.

Lemma extract_run_running j evs w :
  forallb still_running evs = true →
  let w' := ExtractAudio.run j evs w in
  timer w' = timer w ∧ kills w' = kills w ∧ sent w' = sent w.
Proof.
  revert w. induction evs as [|e evs IH]; intros w He; [done|].
  simpl in He. apply andb_prop in He as [He Hevs]. simpl.
  destruct (IH (ExtractAudio.dispatch j e w) Hevs) as (-> & -> & ->).
  by apply extract_dispatch_running.
Qed.

(** ** Cleanup (C1) *)

(** C1 fails on every failure path that goes through a [close] handler: only
    the input file is unlinked there. For an [/extract-audio] job whose
    encoder wrote [partial] to the output path and then exited with a non-zero
    code, the input file is gone and the output file is still in the temp
    directory, holding [partial], when the job has answered. *)
Theorem C1_failed_extraction_leaves_output cfg up q f d1 d2 fs partial code :
  nonzero code = true →
  let r := extract_request cfg (Request (Some up) q f) d1 d2 None
             [EncoderWrites partial; Close code] fs in
  r.1 = Some (extract_job cfg up f d1 d2)
  ∧ is_Some (sent r.2)
  ∧ files r.2 !! upload_path (tmpDir cfg) d1 (inputExt (originalname up)) = None
  ∧ files r.2 !! out_path (tmpDir cfg) d2 (extract_format f) = Some partial.
Proof.
  intros Hn r. subst r. unfold extract_request. rewrite extract_handle_spawned.
  cbn [fst snd ExtractAudio.run fold_left].
  set (w1 := ExtractAudio.dispatch _ (EncoderWrites partial) _).
  assert (crashed w1 = None) as Hc by reflexivity.
  assert (sent w1 = None) as Hs by reflexivity.
  destruct (extract_close_nonzero_response (extract_job cfg up f d1 d2) w1 code)
    as (_ & Hsent & _); [done..|].
  rewrite Hsent, extract_close_nonzero_files by done.
  split_and!; [done|by eexists|..].
  - apply lookup_delete_eq.
  - rewrite lookup_delete_ne by apply upload_out_distinct.
    subst w1. simpl. apply lookup_insert_eq.
Qed.

Lemma C1_failed_extraction_witness :
  let r := extract_request (Config "/tmp" None)
             (Request (Some (Upload "talk.mp4" [Byte.x00])) None (Some "ogg"))
             (Draw 1700000000000 42) (Draw 1700000000001 4711) None
             [EncoderWrites [Byte.x4f; Byte.x67]; Close (Some 1%Z)] ∅ in
  map_to_list (files r.2) = [("/tmp/out-1700000000001-4711.ogg", [Byte.x4f; Byte.x67])]
  ∧ files r.2 !! "/tmp/out-1700000000001-4711.ogg" = Some [Byte.x4f; Byte.x67].
Proof.
  intros r. split; [vm_compute; reflexivity|].
  pose proof (C1_failed_extraction_leaves_output (Config "/tmp" None)
    (Upload "talk.mp4" [Byte.x00]) None (Some "ogg")
    (Draw 1700000000000 42) (Draw 1700000000001 4711) ∅
    [Byte.x4f; Byte.x67] (Some 1%Z) eq_refl) as (_ & _ & _ & H).
  exact H.
Defined.

(** ** Deadline (C2) *)

(** C2 fails for audio extraction: the handler arms no timer, so as long as
    the encoder neither closes nor errors, whatever else happens, the process
    is never signalled and the request is never answered. *)
Theorem C2_extract_audio_has_no_deadline cfg up q f d1 d2 fs evs :
  forallb still_running evs = true →
  let r := extract_request cfg (Request (Some up) q f) d1 d2 None evs fs in
  r.1 = Some (extract_job cfg up f d1 d2)
  ∧ timer r.2 = None ∧ kills r.2 = 0%nat ∧ sent r.2 = None.
Proof.
  intros He r. subst r. unfold extract_request. rewrite extract_handle_spawned.
  cbn [fst snd]. split; [done|].
  by destruct (extract_run_running (extract_job cfg up f d1 d2) evs
                 (extract_world cfg up f d1 d2 fs) He) as (-> & -> & ->).
Qed.

Lemma C2_extract_audio_witness :
  let r := extract_request (Config "/tmp" None)
             (Request (Some (Upload "talk.mp4" [Byte.x00])) None None)
             (Draw 1700000000000 42) (Draw 1700000000001 4711) None
             [Stderr "frame=1"; EncoderWrites [Byte.x01]; Timeout; Stderr "frame=2"] ∅ in
  timer r.2 = None ∧ kills r.2 = 0%nat ∧ sent r.2 = None.
Proof.
  intros r.
  exact (proj2 (C2_extract_audio_has_no_deadline (Config "/tmp" None)
    (Upload "talk.mp4" [Byte.x00]) None None
    (Draw 1700000000000 42) (Draw 1700000000001 4711) ∅
    [Stderr "frame=1"; EncoderWrites [Byte.x01]; Timeout; Stderr "frame=2"] eq_refl)).
Defined.

(** On [/transcode] the timer is armed with 300000 ms and its callback sets
    the flag and signals the process; the [close] that follows removes the
    input file and then throws before any answer is sent. *)
Lemma transcode_timeout_signals_but_sends_nothing cfg up q f d1 d2 fs code :
  timer (transcode_request cfg (Request (Some up) q f) d1 d2 None [] fs).2 = Some 300000
  ∧ let r := transcode_request cfg (Request (Some up) q f) d1 d2 None
               [Timeout; Close code] fs in
    kills r.2 = 1%nat ∧ timedOut r.2 = true ∧ sent r.2 = None
    ∧ crashed r.2 = Some (TypeError "res.status is not a function").
Proof.
  unfold transcode_request. rewrite transcode_handle_spawned. split; [reflexivity|].
  cbn [fst snd Transcode.run fold_left].
  set (w1 := Transcode.dispatch _ Timeout _).
  destruct (transcode_close (transcode_job cfg up q d1 d2) w1 code)
    as (Hs & _ & _ & Hc & _ & Hk & Ht); [reflexivity|apply resolve_not_response|].
  rewrite Hs, Hc, Hk, Ht. split_and!; reflexivity.
Qed.

(** ** Non-zero exit (C7) *)

(** C7 fails on [/transcode]: after a [close] with a non-zero code the input
    file is removed, but the call [res.status(500)] is made on the resolved
    table entry, throws, and no answer carrying the code is ever sent. *)
Theorem C7_transcode_nonzero_exit_sends_nothing cfg up q f d1 d2 fs code :
  nonzero code = true →
  let r := transcode_request cfg (Request (Some up) q f) d1 d2 None [Close code] fs in
  r.1 = Some (transcode_job cfg up q d1 d2)
  ∧ sent r.2 = None
  ∧ crashed r.2 = Some (TypeError "res.status is not a function")
  ∧ files r.2 !! upload_path (tmpDir cfg) d1 (inputExt (originalname up)) = None.
Proof.
  intros Hn r. subst r. unfold transcode_request. rewrite transcode_handle_spawned.
  cbn [fst snd Transcode.run fold_left].
  destruct (transcode_close (transcode_job cfg up q d1 d2)
              (transcode_world cfg up q d1 d2 fs) code)
    as (Hs & _ & _ & Hc & Hf & _); [reflexivity|apply resolve_not_response|].
  rewrite Hs, Hc, Hf, Hn. split_and!; try reflexivity.
  apply lookup_delete_eq.
Qed.

Lemma C7_transcode_nonzero_exit_witness :
  let r := transcode_request (Config "/tmp" None)
             (Request (Some (Upload "holiday.mov" [Byte.x00])) (Some "720p") None)
             (Draw 1700000000000 42) (Draw 1700000000001 4711) None
             [Close (Some 1%Z)] ∅ in
  sent r.2 = None ∧ crashed r.2 = Some (TypeError "res.status is not a function").
Proof.
  intros r.
  pose proof (C7_transcode_nonzero_exit_sends_nothing (Config "/tmp" None)
    (Upload "holiday.mov" [Byte.x00]) (Some "720p") None
    (Draw 1700000000000 42) (Draw 1700000000001 4711) ∅ (Some 1%Z) eq_refl)
    as (_ & Hs & Hc & _).
  exact (conj Hs Hc).
Defined.

(** On [/extract-audio] the same exit is answered as C7 says. *)
Lemma extract_nonzero_exit_answered cfg up q f d1 d2 fs code :
  nonzero code = true →
  let r := extract_request cfg (Request (Some up) q f) d1 d2 None [Close code] fs in
  statusCode r.2 = 500
  ∧ sent r.2 = Some (Text ("Audio extraction failed (ffmpeg error code "
                           +:+ show_code code +:+ ")"))
  ∧ files r.2 !! upload_path (tmpDir cfg) d1 (inputExt (originalname up)) = None.
Proof.
  intros Hn r. subst r. unfold extract_request. rewrite extract_handle_spawned.
  cbn [fst snd ExtractAudio.run fold_left].
  destruct (extract_close_nonzero_response (extract_job cfg up f d1 d2)
              (extract_world cfg up f d1 d2 fs) code) as (Hst & Hs & _); [done..|].
  rewrite Hst, Hs, extract_close_nonzero_files by done.
  split_and!; try reflexivity. apply lookup_delete_eq.
Qed.

(** ** Spawn failure (C8) *)

(** C8 fails: the [error] handlers write one console line and do nothing
    else. After the event the request is unanswered and the staged input is
    still in the temp directory, on both endpoints; on [/transcode] a [close]
    that follows does not answer either. *)
Theorem C8_spawn_error_is_only_logged cfg up q f d1 d2 fs err code :
  let inp := upload_path (tmpDir cfg) d1 (inputExt (originalname up)) in
  let rt := transcode_request cfg (Request (Some up) q f) d1 d2 None [Error err] fs in
  let ra := extract_request cfg (Request (Some up) q f) d1 d2 None [Error err] fs in
  let rc := transcode_request cfg (Request (Some up) q f) d1 d2 None
              [Error err; Close code] fs in
  sent rt.2 = None ∧ sent ra.2 = None
  ∧ last (console rt.2) = Some ("ffmpeg spawn error " +:+ err)
  ∧ last (console ra.2) = Some ("ffmpeg spawn error " +:+ err)
  ∧ files rt.2 !! inp = Some (buffer up)
  ∧ files ra.2 !! inp = Some (buffer up)
  ∧ sent rc.2 = None.
Proof.
  intros inp rt ra rc. subst inp rt ra rc. unfold transcode_request, extract_request.
  rewrite !transcode_handle_spawned, extract_handle_spawned.
  cbn [fst snd Transcode.run ExtractAudio.run fold_left].
  split_and!; try reflexivity.
  - apply lookup_insert_eq.
  - apply lookup_insert_eq.
  - set (w1 := Transcode.dispatch _ (Error err) _).
    destruct (transcode_close (transcode_job cfg up q d1 d2) w1 code)
      as (Hs & _); [reflexivity|apply resolve_not_response|].
    by rewrite Hs.
Qed.

(** ** Success (C9) *)

(** On [/extract-audio] a [close] with code 0 after the encoder wrote [data]
    is answered with status 200, type [audio/<format>] and [data], and both
    temp files are removed. *)
Lemma extract_success_answered cfg up q f d1 d2 fs data :
  let r := extract_request cfg (Request (Some up) q f) d1 d2 None
             [EncoderWrites data; Close (Some 0%Z)] fs in
  statusCode r.2 = 200
  ∧ contentType r.2 = Some ("audio/" +:+ extract_format f)
  ∧ sent r.2 = Some (Bytes data)
  ∧ files r.2 !! upload_path (tmpDir cfg) d1 (inputExt (originalname up)) = None
  ∧ files r.2 !! out_path (tmpDir cfg) d2 (extract_format f) = None.
Proof.
  intros r. subst r. unfold extract_request. rewrite extract_handle_spawned.
  cbn [fst snd ExtractAudio.run fold_left].
  set (w1 := ExtractAudio.dispatch _ (EncoderWrites data) _).
  destruct (extract_close_success (extract_job cfg up f d1 d2) w1 data)
    as (Hst & Hct & Hs & Hf & _); try reflexivity.
  { apply upload_out_distinct. }
  { subst w1. simpl. apply lookup_insert_eq. }
  rewrite Hst, Hct, Hs, Hf. split_and!; try reflexivity.
  - rewrite lookup_delete_ne by (apply not_eq_sym, upload_out_distinct).
    apply lookup_delete_eq.
  - apply lookup_delete_eq.
Qed.

(** C9 fails twice. On [/transcode] a [close] with code 0 reads the output
    file, then [res.type] is called on the resolved table entry and throws;
    the [catch] clause logs and throws again on [res.status]: no answer, no
    content type, and both temp files stay. On [/extract-audio] the answer is
    sent, but the name built from the upload's stem is never put into it: two
    uploads that differ in their stem only leave the same world behind. *)
Theorem C9_success_result_drops_file_name cfg up b q f d1 d2 fs data evs :
  let rt := transcode_request cfg (Request (Some up) q f) d1 d2 None
              [EncoderWrites data; Close (Some 0%Z)] fs in
  let r1 := extract_request cfg (Request (Some (Upload "holiday.mov" b)) q f)
              d1 d2 None evs fs in
  let r2 := extract_request cfg (Request (Some (Upload "lecture.mov" b)) q f)
              d1 d2 None evs fs in
  (sent rt.2 = None ∧ contentType rt.2 = None
   ∧ crashed rt.2 = Some (TypeError "res.status is not a function")
   ∧ files rt.2 !! upload_path (tmpDir cfg) d1 (inputExt (originalname up))
     = Some (buffer up)
   ∧ files rt.2 !! out_path (tmpDir cfg) d2 "mp4" = Some data)
  ∧ outName_ <$> r1.1 = Some ("holiday." +:+ extract_format f)
  ∧ outName_ <$> r2.1 = Some ("lecture." +:+ extract_format f)
  ∧ r1.2 = r2.2.
Proof.
  intros rt r1 r2. subst rt r1 r2. unfold transcode_request, extract_request.
  rewrite transcode_handle_spawned, !extract_handle_spawned.
  cbn [fst snd Transcode.run fold_left]. split_and!.
  - set (w1 := Transcode.dispatch _ (EncoderWrites data) _).
    destruct (transcode_close (transcode_job cfg up q d1 d2) w1 (Some 0%Z))
      as (Hs & _); [reflexivity|apply resolve_not_response|]. by rewrite Hs.
  - set (w1 := Transcode.dispatch _ (EncoderWrites data) _).
    destruct (transcode_close (transcode_job cfg up q d1 d2) w1 (Some 0%Z))
      as (_ & _ & Hc & _); [reflexivity|apply resolve_not_response|]. by rewrite Hc.
  - set (w1 := Transcode.dispatch _ (EncoderWrites data) _).
    destruct (transcode_close (transcode_job cfg up q d1 d2) w1 (Some 0%Z))
      as (_ & _ & _ & Hc & _); [reflexivity|apply resolve_not_response|]. by rewrite Hc.
  - set (w1 := Transcode.dispatch _ (EncoderWrites data) _).
    destruct (transcode_close (transcode_job cfg up q d1 d2) w1 (Some 0%Z))
      as (_ & _ & _ & _ & Hf & _); [reflexivity|apply resolve_not_response|].
    rewrite Hf. subst w1. simpl.
    rewrite lookup_insert_ne by (apply not_eq_sym, upload_out_distinct).
    apply lookup_insert_eq.
  - set (w1 := Transcode.dispatch _ (EncoderWrites data) _).
    destruct (transcode_close (transcode_job cfg up q d1 d2) w1 (Some 0%Z))
      as (_ & _ & _ & _ & Hf & _); [reflexivity|apply resolve_not_response|].
    rewrite Hf. subst w1. simpl. apply lookup_insert_eq.
  - reflexivity.
  - reflexivity.
  - unfold extract_job, extract_world, extract_job.
    change (inputExt (originalname (Upload "holiday.mov" b))) with "mov".
    change (inputExt (originalname (Upload "lecture.mov" b))) with "mov".
    cbn [inputPath outPath format_ buffer]. apply extract_run_outName_irrelevant.
Qed.

(** * Further properties of the handlers *)

(** ** Staging and releasing temp files *)

Lemma with_files_delete_absent p w :
  files w !! p = None → with_files (delete p) w = w.
Proof.
  intros H. destruct w as [fs st ct sn co sp ti tf ki cr]. simpl in *.
  unfold with_files. simpl. by rewrite delete_id.
Qed.

(** The cleanup idiom [try { fs.unlinkSync(p) } catch (e) {}] never throws
    and leaves the temp directory without [p], whether [p] existed or not. *)
Lemma swallow_unlink p w :
  swallow (unlinkSync p) w = (Ok (), with_files (delete p) w).
Proof.
  unfold swallow, try_catch, unlinkSync. destruct (files w !! p) eqn:E; [done|].
  simpl. unfold mret, M_ret. by rewrite with_files_delete_absent.
Qed.

(** X1: a staged upload reads back as the uploaded bytes, under the path
    [writeTempFile] returned, and releasing it afterwards leaves the temp
    directory without that path: whatever was there before is overwritten
    first and removed with it. *)
Theorem X1_stage_read_release tmp d buf ext w :
  (p ← writeTempFile tmp d buf ext;
   b ← readFileSync p;
   swallow (unlinkSync p) ;;
   mret (p, b)) w
  = (Ok (upload_path tmp d ext, buf), with_files (delete (upload_path tmp d ext)) w).
Proof.
  unfold writeTempFile, writeFileSync, readFileSync, modify, mbind, M_bind, mret, M_ret.
  cbn [files with_files]. rewrite lookup_insert_eq, swallow_unlink.
  destruct w as [fs st ct sn co sp ti tf ki cr]. unfold with_files. simpl.
  by rewrite delete_insert_eq.
Qed.

(** X2: the cleanup idiom is idempotent and total, while a bare
    [fs.unlinkSync] of a missing path throws; running the idiom on a path
    that does not exist changes nothing. *)
Theorem X2_cleanup_idiom_idempotent p w :
  files w !! p = None →
  unlinkSync p w = (Throw (ENOENT p), w)
  ∧ swallow (unlinkSync p) w = (Ok (), w)
  ∧ ∀ w', (swallow (unlinkSync p) ;; swallow (unlinkSync p)) w'
          = swallow (unlinkSync p) w'.
Proof.
  intros H. split_and!.
  - unfold unlinkSync. by rewrite H.
  - by rewrite swallow_unlink, with_files_delete_absent.
  - intros w'. unfold mbind, M_bind. rewrite !swallow_unlink.
    rewrite with_files_delete_absent; [done|]. simpl. apply lookup_delete_eq.
Qed.

Lemma X2_cleanup_idiom_witness :
  unlinkSync "/tmp/out-1-2.mp4" (fresh ∅) = (Throw (ENOENT "/tmp/out-1-2.mp4"), fresh ∅)
  ∧ swallow (unlinkSync "/tmp/out-1-2.mp4") (fresh ∅) = (Ok (), fresh ∅).
Proof.
  pose proof (X2_cleanup_idiom_idempotent "/tmp/out-1-2.mp4" (fresh ∅) eq_refl)
    as (H1 & H2 & _).
  exact (conj H1 H2).
Defined.

(** ** Requests answered by the handler itself *)

#[local] Arguments swallow : simpl never.
#[local] Arguments unlinkSync : simpl never.

(** X3: a request without an upload is answered with status 400 and the text
    [No file uploaded] on both encoder endpoints; nothing is staged, nothing
    is spawned, no timer is armed, and no event is looked at. *)
Theorem X3_missing_upload_is_rejected cfg q f d1 d2 threw evs fs :
  let rt := transcode_request cfg (Request None q f) d1 d2 threw evs fs in
  let ra := extract_request cfg (Request None q f) d1 d2 threw evs fs in
  rt.1 = None ∧ ra.1 = None
  ∧ statusCode rt.2 = 400 ∧ statusCode ra.2 = 400
  ∧ sent rt.2 = Some (Text "No file uploaded")
  ∧ sent ra.2 = Some (Text "No file uploaded")
  ∧ files rt.2 = fs ∧ files ra.2 = fs
  ∧ spawned rt.2 = None ∧ spawned ra.2 = None
  ∧ timer rt.2 = None ∧ kills rt.2 = 0%nat
  ∧ ra.2 = with_sent (Text "No file uploaded") (with_statusCode 400 (fresh fs)).
Proof. intros rt ra. subst rt ra. split_and!; reflexivity. Qed.


(** ** The supervised encoder of [/transcode] *)

Lemma transcode_close_timer j w code :
  crashed w = None → timer (Transcode.dispatch j (Close code) w) = None.
Proof.
  intros Hc. destruct w as [fs st ct sn co sp ti tf ki cr]. simpl in *. subst.
  unfold Transcode.dispatch, run_handler, Transcode.on_close. unfold_M.
  unfold swallow, try_catch, unlinkSync. simpl.
  destruct tf; simpl.
  - destruct (fs !! inputPath j); simpl; destruct (res j); simpl; try done;
      destruct sn; done.
  - destruct (nonzero code); simpl.
    + destruct (fs !! inputPath j); simpl; destruct (res j); simpl; try done;
        destruct sn; done.
    + destruct (fs !! outPath j); simpl; destruct (res j); simpl; try done;
        destruct sn; simpl; try done;
        destruct (fs !! inputPath j); simpl; try done;
        repeat case_match; simplify_eq/=; done.
Qed.

(** What one event does to the answer, the signal count and the flag of a
    [/transcode] job. *)
Lemma transcode_dispatch_summary j e w :
  res j ≠ ExpressRes →
  let w' := Transcode.dispatch j e w in
  sent w' = sent w
  ∧ (signal_state w → signal_state w')
  ∧ (disarmed w → disarmed w' ∧ kills w' = kills w)
  ∧ (still_running e = false → disarmed w' ∧ kills w' = kills w).
Proof.
  intros Hr. destruct e as [|d|err|code|b]; cbn zeta.
  - (* the timer expires *)
    destruct w as [fs st ct sn co sp ti tf ki cr]. unfold signal_state, disarmed.
    simpl. destruct ti as [ms|]; [|by intuition].
    unfold run_handler. simpl. destruct cr as [e|]; simpl.
    + split_and!; [done|done|intros _; split; [right; by eexists|done]|done].
    + split_and!; [done| |intros [?|[? ?]]; done|done].
      intros [[-> ->]|(_ & _ & ?)]; [right; done|done].
  - destruct w as [fs st ct sn co sp ti tf ki cr]. unfold signal_state, disarmed.
    simpl. unfold run_handler. simpl. destruct cr; simpl; by intuition.
  - destruct w as [fs st ct sn co sp ti tf ki cr]. unfold signal_state, disarmed.
    simpl. unfold run_handler. simpl. destruct cr as [e|]; simpl.
    + split_and!; [done|done|done|intros _; split; [right; by eexists|done]].
    + split_and!; [done| |intros _; split; [by left|done]
                  |intros _; split; [by left|done]].
      intros [?|(? & ? & ?)]; [by left|right; done].
  - destruct (crashed w) as [e|] eqn:Hc.
    + assert (Transcode.dispatch j (Close code) w = w) as ->.
      { unfold Transcode.dispatch, run_handler. by rewrite Hc. }
      split_and!; [done|done|done|intros _; split; [right; by eexists|done]].
    + destruct (transcode_close j w code Hc Hr) as (Hs & _ & _ & _ & _ & Hk & Ht).
      pose proof (transcode_close_timer j w code Hc) as Hti.
      unfold signal_state, disarmed. rewrite Hs, Hk, Ht, Hti.
      split_and!; [done| |intros _; split; [by left|done]
                  |intros _; split; [by left|done]].
      intros [?|(? & ? & ?)]; [by left|right; done].
  - destruct w as [fs st ct sn co sp ti tf ki cr]. unfold signal_state, disarmed.
    simpl. destruct cr; simpl; by intuition.
Qed.

Lemma transcode_run_summary j evs w :
  res j ≠ ExpressRes →
  let w' := Transcode.run j evs w in
  sent w' = sent w
  ∧ (signal_state w → signal_state w')
  ∧ (disarmed w → disarmed w' ∧ kills w' = kills w).
Proof.
  intros Hr. revert w. induction evs as [|e evs IH]; intros w; [by intuition|].
  cbn zeta.
  change (Transcode.run j (e :: evs) w)
    with (Transcode.run j evs (Transcode.dispatch j e w)).
  destruct (IH (Transcode.dispatch j e w)) as (Hs & Hi & Hd).
  destruct (transcode_dispatch_summary j e w Hr) as (Hs' & Hi' & Hd' & _).
  split_and!.
  - by rewrite Hs.
  - intros H. by apply Hi, Hi'.
  - intros H. destruct (Hd' H) as [H1 H2]. destruct (Hd H1) as [H3 H4].
    split; [done|by rewrite H4].
Qed.

Lemma transcode_run_app j (evs evs' : list event) w :
  Transcode.run j (evs ++ evs')%list w = Transcode.run j evs' (Transcode.run j evs w).
Proof. unfold Transcode.run. apply fold_left_app. Qed.

(** X5: [/transcode] never answers with converted bytes. Without an upload
    the answer is [No file uploaded], when [spawn] throws it is [Transcoding
    failed.], and once the encoder is spawned no sequence of events makes the
    handlers send anything at all. *)
Theorem X5_transcode_never_returns_output cfg req d1 d2 threw evs fs :
  let r := transcode_request cfg req d1 d2 threw evs fs in
  sent r.2 =
    match file req, threw with
    | None, _ => Some (Text "No file uploaded")
    | Some _, Some _ => Some (Text "Transcoding failed.")
    | Some _, None => None
    end.
Proof.
  intros r. subst r. destruct req as [[up|] q f]; [|reflexivity].
  cbn [file]. destruct threw as [msg|].
  - unfold transcode_request, Transcode.handle.
    unfold res_status_send, res_status, res_send, method, try_catch,
      writeTempFile, writeFileSync, console_log, spawn, throw, modify, get,
      mbind, M_bind, mret, M_ret.
    cbn. rewrite !swallow_unlink. reflexivity.
  - unfold transcode_request. rewrite transcode_handle_spawned. cbn [snd].
    destruct (transcode_run_summary (transcode_job cfg up q d1 d2) evs
                (transcode_world cfg up q d1 d2 fs)) as (Hs & _);
      [apply resolve_not_response|].
    by rewrite Hs.
Qed.

(** X6: whatever events arrive, a [/transcode] job signals its encoder at
    most once, and the [timedOut] flag is set exactly when it did; after the
    signal the timer is gone. *)
Theorem X6_transcode_signals_at_most_once cfg up q f d1 d2 evs fs :
  let r := transcode_request cfg (Request (Some up) q f) d1 d2 None evs fs in
  (kills r.2 = 0%nat ∧ timedOut r.2 = false)
  ∨ (kills r.2 = 1%nat ∧ timedOut r.2 = true ∧ timer r.2 = None).
Proof.
  intros r. subst r. unfold transcode_request. rewrite transcode_handle_spawned.
  cbn [snd].
  destruct (transcode_run_summary (transcode_job cfg up q d1 d2) evs
              (transcode_world cfg up q d1 d2 fs)) as (_ & Hi & _);
    [apply resolve_not_response|].
  apply Hi. left. split; reflexivity.
Qed.

(** X7: once [error] or [close] was delivered to a [/transcode] job, the
    timer is cleared for good: no later event, an expiry included, signals
    the encoder. *)
Theorem X7_transcode_timer_cleared_by_exit cfg up q f d1 d2
    (evs evs' : list event) err code fs :
  let run evs := (transcode_request cfg (Request (Some up) q f) d1 d2 None evs fs).2 in
  kills (run (evs ++ Error err :: evs')%list) = kills (run evs)
  ∧ kills (run (evs ++ Close code :: evs')%list) = kills (run evs).
Proof.
  cbn zeta. unfold transcode_request. rewrite !transcode_handle_spawned. cbn [snd].
  set (j := transcode_job cfg up q d1 d2).
  assert (res j ≠ ExpressRes) as Hr by apply resolve_not_response.
  rewrite !transcode_run_app.
  set (w := Transcode.run j evs _).
  assert (∀ e, still_running e = false →
            kills (Transcode.run j (e :: evs') w) = kills w) as H.
  { intros e He.
    change (Transcode.run j (e :: evs') w)
      with (Transcode.run j evs' (Transcode.dispatch j e w)).
    destruct (transcode_dispatch_summary j e w Hr) as (_ & _ & _ & Hd).
    destruct (Hd He) as [Hd1 Hd2].
    destruct (transcode_run_summary j evs' (Transcode.dispatch j e w) Hr)
      as (_ & _ & Hk).
    destruct (Hk Hd1) as [_ ->]. done. }
  split; by apply H.
Qed.

(** ** The supervised encoder of [/extract-audio] *)

(** While the encoder runs, the events leave the answer, the status, the
    content type and every file but the output file alone, and no handler
    throws. *)
Lemma extract_dispatch_running_frame j e w :
  still_running e = true → crashed w = None →
  let w' := ExtractAudio.dispatch j e w in
  crashed w' = None ∧ sent w' = sent w ∧ statusCode w' = statusCode w
  ∧ contentType w' = contentType w
  ∧ ∀ p, p ≠ outPath j → files w' !! p = files w !! p.
Proof.
  intros He Hc. destruct w as [fs st ct sn co sp ti tf ki cr]. simpl in Hc. subst.
  destruct e; try discriminate He; simpl; unfold run_handler; simpl;
    split_and!; try done.
  intros p Hp. by rewrite lookup_insert_ne.
Qed.

Lemma extract_run_running_frame j evs w :
  forallb still_running evs = true → crashed w = None →
  let w' := ExtractAudio.run j evs w in
  crashed w' = None ∧ sent w' = sent w ∧ statusCode w' = statusCode w
  ∧ contentType w' = contentType w
  ∧ ∀ p, p ≠ outPath j → files w' !! p = files w !! p.
Proof.
  revert w. induction evs as [|e evs IH]; intros w He Hc; [done|].
  simpl in He. apply andb_prop in He as [He Hevs]. cbn zeta.
  change (ExtractAudio.run j (e :: evs) w)
    with (ExtractAudio.run j evs (ExtractAudio.dispatch j e w)).
  destruct (extract_dispatch_running_frame j e w He Hc) as (Hc1 & Hs1 & Hst1 & Hct1 & Hf1).
  destruct (IH _ Hevs Hc1) as (Hc2 & Hs2 & Hst2 & Hct2 & Hf2).
  split_and!; try congruence.
  intros p Hp. by rewrite Hf2, Hf1.
Qed.

Lemma extract_run_app j (evs evs' : list event) w :
  ExtractAudio.run j (evs ++ evs')%list w
  = ExtractAudio.run j evs' (ExtractAudio.run j evs w).
Proof. unfold ExtractAudio.run. apply fold_left_app. Qed.

(** X8: on [/extract-audio], whatever stderr chunks, output writes and timer
    expiries come first, a [close] with a non-zero (or [null]) code is answered
    with status 500 and a text that carries the code, and the staged input is
    removed. *)
Theorem X8_extract_failure_is_answered cfg up q f d1 d2 fs (evs : list event) code :
  forallb still_running evs = true → nonzero code = true →
  let r := extract_request cfg (Request (Some up) q f) d1 d2 None
             (evs ++ [Close code])%list fs in
  statusCode r.2 = 500
  ∧ sent r.2 = Some (Text ("Audio extraction failed (ffmpeg error code "
                           +:+ show_code code +:+ ")"))
  ∧ files r.2 !! upload_path (tmpDir cfg) d1 (inputExt (originalname up)) = None
  ∧ crashed r.2 = None.
Proof.
  intros He Hn r. subst r. unfold extract_request. rewrite extract_handle_spawned.
  cbn [snd]. rewrite extract_run_app.
  set (j := extract_job cfg up f d1 d2).
  destruct (extract_run_running_frame j evs (extract_world cfg up f d1 d2 fs) He)
    as (Hc & Hs & _); [reflexivity|].
  set (w := ExtractAudio.run j evs _) in *.
  change (ExtractAudio.run j [Close code] w) with (ExtractAudio.dispatch j (Close code) w).
  destruct (extract_close_nonzero_response j w code) as (Hst & Hsent & _ & Hcr);
    [done|by rewrite Hs|reflexivity|done|].
  rewrite Hst, Hsent, Hcr, extract_close_nonzero_files by done.
  split_and!; try reflexivity. apply lookup_delete_eq.
Qed.

Lemma X8_extract_failure_witness :
  let r := extract_request (Config "/tmp" None)
             (Request (Some (Upload "talk.mp4" [Byte.x00])) None (Some "wav"))
             (Draw 1700000000000 42) (Draw 1700000000001 4711) None
             [Stderr "frame=1"; EncoderWrites [Byte.x01]; Close None] ∅ in
  statusCode r.2 = 500
  ∧ sent r.2 = Some (Text "Audio extraction failed (ffmpeg error code null)").
Proof.
  intros r.
  pose proof (X8_extract_failure_is_answered (Config "/tmp" None)
    (Upload "talk.mp4" [Byte.x00]) None (Some "wav")
    (Draw 1700000000000 42) (Draw 1700000000001 4711) ∅
    [Stderr "frame=1"; EncoderWrites [Byte.x01]] None eq_refl eq_refl)
    as (H1 & H2 & _).
  exact (conj H1 H2).
Defined.

(** X9: on [/extract-audio], for a format of plain characters (printable
    ASCII, no path separator), when the encoder's last write is [data] and it
    then closes with code 0, the answer is status 200, type [audio/<format>]
    and exactly [data]; and if neither temp path existed before the request,
    the temp directory is afterwards exactly what it was. *)
Theorem X9_extract_success_restores_temp_dir cfg up q f d1 d2 fs (evs : list event) data :
  plain (extract_format f) = true →
  forallb still_running evs = true →
  fs !! upload_path (tmpDir cfg) d1 (inputExt (originalname up)) = None →
  fs !! out_path (tmpDir cfg) d2 (extract_format f) = None →
  let r := extract_request cfg (Request (Some up) q f) d1 d2 None
             (evs ++ [EncoderWrites data; Close (Some 0%Z)])%list fs in
  statusCode r.2 = 200
  ∧ contentType r.2 = Some ("audio/" +:+ extract_format f)
  ∧ sent r.2 = Some (Bytes data)
  ∧ files r.2 = fs.
Proof.
  intros _ He Hi Ho r. subst r. unfold extract_request. rewrite extract_handle_spawned.
  cbn [snd]. rewrite extract_run_app.
  set (j := extract_job cfg up f d1 d2).
  destruct (extract_run_running_frame j evs (extract_world cfg up f d1 d2 fs) He)
    as (Hc & Hs & Hst & _ & Hf); [reflexivity|].
  set (w := ExtractAudio.run j evs _) in *.
  change (ExtractAudio.run j [EncoderWrites data; Close (Some 0%Z)] w)
    with (ExtractAudio.dispatch j (Close (Some 0%Z))
            (ExtractAudio.dispatch j (EncoderWrites data) w)).
  set (w1 := ExtractAudio.dispatch j (EncoderWrites data) w).
  assert (w1 = with_files (insert (outPath j) data) w) as Hw1.
  { subst w1. unfold ExtractAudio.dispatch. by rewrite Hc. }
  destruct (extract_close_success j w1 data) as (H1 & H2 & H3 & H4 & _).
  { by rewrite Hw1. }
  { by rewrite Hw1. }
  { by rewrite Hw1. }
  { reflexivity. }
  { apply upload_out_distinct. }
  { rewrite Hw1. simpl. apply lookup_insert_eq. }
  rewrite H1, H2, H3, H4. split_and!; try reflexivity.
  apply map_eq. intros p. rewrite Hw1. cbn [files with_files].
  destruct (decide (p = outPath j)) as [->|Hpo].
  { rewrite lookup_delete_eq. symmetry. exact Ho. }
  rewrite lookup_delete_ne by done.
  destruct (decide (p = inputPath j)) as [->|Hpi].
  { rewrite lookup_delete_eq. symmetry. exact Hi. }
  rewrite lookup_delete_ne, lookup_insert_ne by done.
  rewrite Hf by done. simpl. by rewrite lookup_insert_ne.
Qed.

Lemma X9_extract_success_witness :
  let r := extract_request (Config "/tmp" None)
             (Request (Some (Upload "talk.mp4" [Byte.x00])) None (Some "OGG"))
             (Draw 1700000000000 42) (Draw 1700000000001 4711) None
             [EncoderWrites [Byte.x01]; Stderr "size=1"; EncoderWrites [Byte.x01; Byte.x02];
              Close (Some 0%Z)] ∅ in
  statusCode r.2 = 200
  ∧ contentType r.2 = Some "audio/ogg"
  ∧ sent r.2 = Some (Bytes [Byte.x01; Byte.x02])
  ∧ files r.2 = ∅.
Proof.
  intros r.
  exact (X9_extract_success_restores_temp_dir (Config "/tmp" None)
    (Upload "talk.mp4" [Byte.x00]) None (Some "OGG")
    (Draw 1700000000000 42) (Draw 1700000000001 4711) ∅
    [EncoderWrites [Byte.x01]; Stderr "size=1"] [Byte.x01; Byte.x02]
    eq_refl eq_refl eq_refl eq_refl).
Defined.

(** X10: on [/extract-audio] the read of the output file is not guarded. For
    a format of plain characters (printable ASCII, no path separator), when
    the encoder closes with code 0 without having written the output file,
    the exception of [readFileSync] leaves the handler: nothing is answered
    and the staged input stays in the temp directory. *)
Theorem X10_extract_missing_output_is_uncaught cfg up q f d1 d2 fs (evs : list event) :
  plain (extract_format f) = true →
  forallb (λ e, match e with Stderr _ | Timeout => true | _ => false end) evs = true →
  fs !! out_path (tmpDir cfg) d2 (extract_format f) = None →
  let r := extract_request cfg (Request (Some up) q f) d1 d2 None
             (evs ++ [Close (Some 0%Z)])%list fs in
  sent r.2 = None
  ∧ crashed r.2 = Some (ENOENT (out_path (tmpDir cfg) d2 (extract_format f)))
  ∧ files r.2 !! upload_path (tmpDir cfg) d1 (inputExt (originalname up))
    = Some (buffer up).
Proof.
  intros _ He Ho r. subst r. unfold extract_request. rewrite extract_handle_spawned.
  cbn [snd]. rewrite extract_run_app.
  set (j := extract_job cfg up f d1 d2).
  assert (∀ w, crashed w = None →
            let w' := ExtractAudio.run j evs w in
            crashed w' = None ∧ sent w' = sent w ∧ files w' = files w) as Hrun.
  { clear Ho. induction evs as [|e evs IH]; intros w Hc; [done|].
    simpl in He. apply andb_prop in He as [He Hevs]. cbn zeta.
    change (ExtractAudio.run j (e :: evs) w)
      with (ExtractAudio.run j evs (ExtractAudio.dispatch j e w)).
    destruct w as [fs' st ct sn co sp ti tf ki cr]. simpl in Hc. subst.
    destruct e; try discriminate He.
    - apply (IH Hevs). done.
    - destruct (IH Hevs (ExtractAudio.dispatch j (Stderr d)
        (World fs' st ct sn co sp ti tf ki None))) as (? & ? & ?); [done|].
      split_and!; done. }
  destruct (Hrun (extract_world cfg up f d1 d2 fs)) as (Hc & Hs & Hf); [reflexivity|].
  set (w := ExtractAudio.run j evs _) in *.
  change (ExtractAudio.run j [Close (Some 0%Z)] w)
    with (ExtractAudio.dispatch j (Close (Some 0%Z)) w).
  assert (files w !! outPath j = None) as Hout.
  { rewrite Hf. simpl. rewrite lookup_insert_ne by apply upload_out_distinct. exact Ho. }
  assert (files w !! inputPath j = Some (buffer up)) as Hin.
  { rewrite Hf. simpl. apply lookup_insert_eq. }
  assert (sent w = None) as Hsw by (by rewrite Hs).
  clearbody w. destruct w as [fs' st ct sn co sp ti tf ki cr]. simpl in *. subst.
  unfold run_handler, ExtractAudio.on_close. unfold_M. simpl. rewrite Hout. simpl.
  done.
Qed.

Lemma X10_extract_missing_output_witness :
  let r := extract_request (Config "/tmp" None)
             (Request (Some (Upload "talk.mp4" [Byte.x00])) None None)
             (Draw 1700000000000 42) (Draw 1700000000001 4711) None
             [Stderr "Conversion failed!"; Close (Some 0%Z)] ∅ in
  sent r.2 = None
  ∧ crashed r.2 = Some (ENOENT "/tmp/out-1700000000001-4711.mp3")
  ∧ files r.2 !! "/tmp/upload-1700000000000-42.mp4" = Some [Byte.x00].
Proof.
  intros r.
  exact (X10_extract_missing_output_is_uncaught (Config "/tmp" None)
    (Upload "talk.mp4" [Byte.x00]) None None
    (Draw 1700000000000 42) (Draw 1700000000001 4711) ∅
    [Stderr "Conversion failed!"] eq_refl eq_refl eq_refl).
Defined.

(** ** File names *)

Lemma split_nonempty sep s : split sep s ≠ [].
Proof.
  destruct s as [|c r]; simpl; [done|].
  destruct (Ascii.eqb c sep); [done|]. by destruct (split sep r).
Qed.

Lemma split_no_sep sep s : Forall (λ x, occurs sep x = false) (split sep s).
Proof.
  induction s as [|c r IH]; simpl; [by constructor|].
  destruct (Ascii.eqb c sep) eqn:E; [by constructor|].
  destruct (split sep r) as [|x xs]; [constructor; [simpl; by rewrite E|constructor]|].
  inversion IH; subst. constructor; [simpl; by rewrite E|done].
Qed.

Lemma split_without_sep sep s : occurs sep s = false → split sep s = [s].
Proof.
  induction s as [|c r IH]; simpl; [done|].
  intros H. apply orb_false_elim in H as [-> H]. by rewrite (IH H).
Qed.

Lemma last_Forall (P : string → Prop) l d : l ≠ [] → Forall P l → P (List.last l d).
Proof.
  induction l as [|x [|y l] IH]; intros Hne HP; [done|by inversion HP|].
  inversion HP; subst. apply IH; done.
Qed.

Lemma last_cons_cons (x y : string) l d : List.last (x :: y :: l) d = List.last (y :: l) d.
Proof. reflexivity. Qed.

(** X11: the extension under which an upload is staged never holds a dot; a
    non-empty name without any dot is its own extension, and the empty name
    gives [input]. *)
Theorem X11_inputExt_shape name :
  occurs "." (inputExt name) = false
  ∧ inputExt "" = "input"
  ∧ (if occurs "." name then True else name = "" ∨ inputExt name = name).
Proof.
  split_and!.
  - unfold inputExt, pop. apply (last_Forall (λ x, occurs "." x = false)).
    + apply split_nonempty.
    + apply split_no_sep.
  - reflexivity.
  - destruct (occurs "." name) eqn:E; [done|].
    destruct name as [|c r]; [by left|right].
    unfold inputExt, or_default. cbn [String.eqb].
    by rewrite split_without_sep.
Qed.

Lemma rindex_append c stem ext :
  occurs c ext = false → rindex c (stem +:+ String c ext) = Some (String.length stem).
Proof.
  intros H. induction stem as [|d stem IH].
  - change (rindex c (String c ext) = Some 0%nat). simpl.
    assert (rindex c ext = None) as ->.
    { clear -H. induction ext as [|e ext IH]; simpl in *; [done|].
      apply orb_false_elim in H as [-> H]. by rewrite (IH H). }
    by rewrite Ascii.eqb_refl.
  - change (rindex c (String d (stem +:+ String c ext)) = Some (S (String.length stem))).
    simpl. by rewrite IH.
Qed.

Lemma substring_append stem rest :
  substring 0 (String.length stem) (stem +:+ rest) = stem.
Proof.
  induction stem as [|d stem IH].
  - by destruct rest.
  - change (substring 0 (S (String.length stem)) (String d (stem +:+ rest))
            = String d stem).
    simpl. by rewrite IH.
Qed.

Lemma split_append_length c stem ext :
  (2 ≤ length (split c (stem +:+ String c ext)))%nat.
Proof.
  induction stem as [|d stem IH].
  - change (2 ≤ length (split c (String c ext)))%nat. simpl.
    rewrite Ascii.eqb_refl. simpl.
    pose proof (split_nonempty c ext). destruct (split c ext); [done|simpl; lia].
  - change (2 ≤ length (split c (String d (stem +:+ String c ext))))%nat. simpl.
    destruct (Ascii.eqb d c); [simpl; lia|].
    destruct (split c (stem +:+ String c ext)); simpl in *; lia.
Qed.

Lemma pop_split_append c stem ext :
  occurs c ext = false → pop (split c (stem +:+ String c ext)) = ext.
Proof.
  intros H. unfold pop. induction stem as [|d stem IH].
  - change (List.last (split c (String c ext)) "" = ext). simpl.
    by rewrite Ascii.eqb_refl, split_without_sep.
  - change (List.last (split c (String d (stem +:+ String c ext))) "" = ext). simpl.
    pose proof (split_append_length c stem ext) as Hlen.
    destruct (split c (stem +:+ String c ext)) as [|x [|y l]];
      [simpl in Hlen; lia|simpl in Hlen; lia|].
    rewrite last_cons_cons in IH.
    destruct (Ascii.eqb d c); by rewrite !last_cons_cons.
Qed.

(** X12: for an upload named [stem.ext], with a non-empty stem and no dot in
    [ext] (and not the name [..]), the staged extension is [ext] and the
    output name computed for a format is [stem.format]; asking for the
    upload's own extension gives back the upload's name. *)
Theorem X12_stem_and_extension stem ext format :
  stem ≠ "" → occurs "." ext = false → stem +:+ "." +:+ ext ≠ ".." →
  inputExt (stem +:+ "." +:+ ext) = ext
  ∧ outName (stem +:+ "." +:+ ext) format = stem +:+ "." +:+ format
  ∧ outName (stem +:+ "." +:+ ext) (inputExt (stem +:+ "." +:+ ext))
    = stem +:+ "." +:+ ext.
Proof.
  intros Hs He Hn.
  assert (inputExt (stem +:+ "." +:+ ext) = ext) as Hext.
  { unfold inputExt, or_default.
    destruct (String.eqb_spec (stem +:+ "." +:+ ext) "") as [E|_].
    - destruct stem; discriminate E.
    - by apply pop_split_append. }
  assert (parse_name (stem +:+ "." +:+ ext) = stem) as Hname.
  { unfold parse_name.
    change (stem +:+ "." +:+ ext) with (stem +:+ String "." ext) in *.
    rewrite rindex_append by done.
    destruct stem as [|d stem]; [done|]. cbn [String.length].
    apply String.eqb_neq in Hn. rewrite Hn.
    apply (substring_append (String d stem)). }
  split_and!; [done|unfold outName; by rewrite Hname|].
  unfold outName. by rewrite Hname, Hext.
Qed.

Lemma X12_stem_and_extension_witness :
  inputExt "my.holiday.mov" = "mov"
  ∧ outName "my.holiday.mov" "mp4" = "my.holiday.mp4"
  ∧ outName "my.holiday.mov" (inputExt "my.holiday.mov") = "my.holiday.mov".
Proof.
  apply (X12_stem_and_extension "my.holiday" "mov" "mp4"); [discriminate|reflexivity|discriminate].
Defined.

(** ** What reaches the encoder *)

Lemma resolve_range q :
  resolve q ∈ [Entry 240 "400k"; Entry 360 "800k"; Entry 480 "1500k";
               Entry 720 "3000k"; Entry 1080 "5000k"; Entry 1440 "8000k"]
  ∨ (q ∈ object_prototype_keys ∧ resolve q = Inherited q).
Proof.
  unfold resolve. destruct (resMap_get q) as [v|] eqn:E.
  - unfold resMap_get in E. destruct (resMap !! q) as [[h br]|] eqn:Eq.
    + left. simplify_eq. apply elem_of_list_to_map_2 in Eq.
      repeat (apply elem_of_cons in Eq as [Eq|Eq];
              [simplify_eq; set_solver|]).
      by apply not_elem_of_nil in Eq.
    + case_bool_decide; simplify_eq. by right.
  - left. rewrite resMap_get_720p. set_solver.
Qed.

(** X14: whatever selector a request carries, the scale and bitrate that
    [/transcode] hands the encoder are one of seven fixed pairs (the six
    presets, or [undefined] twice), inside the same sixteen-argument frame:
    the selector itself never becomes an argument. *)
Theorem X14_transcode_vector_is_one_of_seven i o q :
  ∃ scale br,
    (scale, br) ∈ transcode_settings
    ∧ transcode_args i o (resolve q)
      = [Str "-y"; Str "-i"; Str i; Str "-vf"; Str scale; Str "-b:v"; br;
         Str "-c:v"; Str "libx264"; Str "-preset"; Str "medium";
         Str "-c:a"; Str "aac"; Str "-b:a"; Str "128k"; Str o].
Proof.
  assert (∀ v, v ∈ [Entry 240 "400k"; Entry 360 "800k"; Entry 480 "1500k";
                     Entry 720 "3000k"; Entry 1080 "5000k"; Entry 1440 "8000k";
                     Inherited q] →
          ("scale=-2:" +:+ template_num (get_h v), arg_of (get_br v))
            ∈ transcode_settings) as Hin.
  { intros v Hv. unfold transcode_settings.
    repeat (apply elem_of_cons in Hv as [->|Hv];
            [vm_compute; set_solver|]).
    by apply not_elem_of_nil in Hv. }
  exists ("scale=-2:" +:+ template_num (get_h (resolve q))), (arg_of (get_br (resolve q))).
  split; [|reflexivity].
  apply Hin.
  change (resolve q ∈ ([Entry 240 "400k"; Entry 360 "800k"; Entry 480 "1500k";
                        Entry 720 "3000k"; Entry 1080 "5000k"; Entry 1440 "8000k"]
                       ++ [Inherited q])%list).
  apply elem_of_app. destruct (resolve_range q) as [H|[_ ->]]; [by left|right].
  apply list_elem_of_here.
Qed.

(** ** The target format *)

Lemma lower_ascii_not_upper c : is_upper (lower_ascii c) = false.
Proof.
  unfold is_upper, lower_ascii.
  destruct (N.leb_spec 65 (N_of_ascii c)) as [H1|H1];
    destruct (N.leb_spec (N_of_ascii c) 90) as [H2|H2]; simpl.
  - rewrite N_ascii_embedding by lia.
    apply andb_false_iff. right. apply N.leb_gt. lia.
  - apply andb_false_iff. right. apply N.leb_gt. lia.
  - apply andb_false_iff. left. apply N.leb_gt. lia.
  - apply andb_false_iff. left. apply N.leb_gt. lia.
Qed.

Lemma toLowerCase_no_upper s : has_upper (toLowerCase s) = false.
Proof.
  induction s as [|c r IH]; simpl; [done|]. by rewrite lower_ascii_not_upper, IH.
Qed.

Lemma toLowerCase_idempotent s : toLowerCase (toLowerCase s) = toLowerCase s.
Proof.
  induction s as [|c r IH]; simpl; [done|]. rewrite IH. f_equal.
  pose proof (lower_ascii_not_upper c) as H. unfold lower_ascii at 1.
  unfold is_upper in H. by rewrite H.
Qed.

(** X15: the format an audio extraction works with is never empty and holds
    no upper-case ASCII letter, whatever the request says, so neither do the
    extension of the output path and the subtype of the content type; feeding
    it back as the request's format changes nothing. *)
Theorem X15_extract_format_shape f :
  extract_format f ≠ ""
  ∧ has_upper (extract_format f) = false
  ∧ extract_format (Some (extract_format f)) = extract_format f.
Proof.
  assert (∀ s, toLowerCase s = "" → s = "") as Hempty by (by intros [|??]).
  assert (or_default f "mp3" ≠ "") as Hne.
  { unfold or_default. destruct f as [s|]; [|done].
    destruct (String.eqb_spec s ""); done. }
  assert (extract_format f ≠ "") as Hfmt.
  { unfold extract_format. intros E. by apply Hempty in E. }
  split_and!; [done|apply toLowerCase_no_upper|].
  unfold extract_format at 1. unfold or_default.
  destruct (String.eqb_spec (extract_format f) ""); [done|].
  unfold extract_format. apply toLowerCase_idempotent.
Qed.

(** ** The image endpoint *)

(** X16: with an upload, [/convert] answers a fresh response exactly once:
    status 200, type [image/<format>] and the library's bytes when the
    library returns, status 500 and [Conversion failed.] when it throws; the
    temp directory is not touched and nothing is spawned. Without an upload
    the read of [req.file.buffer], which stands before the [try] block,
    throws: the handler answers neither 400, as the encoder endpoints do,
    nor [Conversion failed.]. *)
Theorem X16_convert_answers fs up q f sharp :
  let r := Convert.handle (Request (Some up) q f) sharp (fresh fs) in
  let r0 := Convert.handle (Request None q f) sharp (fresh fs) in
  r.1 = Ok ()
  ∧ files r.2 = fs ∧ spawned r.2 = None ∧ timer r.2 = None
  ∧ match sharp (buffer up) f with
    | Ok converted =>
        statusCode r.2 = 200
        ∧ contentType r.2 = Some ("image/" +:+ template_str f)
        ∧ sent r.2 = Some (Bytes converted)
    | Throw _ =>
        statusCode r.2 = 500
        ∧ contentType r.2 = None
        ∧ sent r.2 = Some (Text "Conversion failed.")
    end
  ∧ r0 = (Throw (TypeError "Cannot read properties of undefined (reading 'buffer')"),
          fresh fs).
Proof.
  intros r r0. subst r r0. unfold Convert.handle. unfold_M.
  cbn [file buffer body_format].
  destruct (sharp (buffer up) f) as [converted|e]; cbn; split_and!; reflexivity.
Qed.

(** ** Diagnostic output and the deadline *)

Lemma extract_stderr_console j (ds : list string) w :
  crashed w = None →
  let w' := ExtractAudio.run j (Stderr <$> ds) w in
  console w' = (console w ++ ((λ d, "ffmpeg: " +:+ d) <$> ds))%list
  ∧ files w' = files w ∧ sent w' = sent w ∧ crashed w' = None.
Proof.
  revert w. induction ds as [|d ds IH]; intros w Hc.
  - cbn. by rewrite app_nil_r.
  - cbn zeta.
    change (ExtractAudio.run j (Stderr <$> d :: ds) w)
      with (ExtractAudio.run j (Stderr <$> ds) (ExtractAudio.dispatch j (Stderr d) w)).
    destruct w as [fs st ct sn co sp ti tf ki cr]. simpl in Hc. subst.
    destruct (IH (ExtractAudio.dispatch j (Stderr d) (World fs st ct sn co sp ti tf ki None)))
      as (H1 & H2 & H3 & H4); [done|].
    rewrite H1, H2, H3, H4. cbn. by rewrite <-app_assoc.
Qed.

Lemma transcode_stderr_console j (ds : list string) w :
  crashed w = None →
  let w' := Transcode.run j (Stderr <$> ds) w in
  console w' = (console w ++ ((λ d, "ffmpeg: " +:+ trim d) <$> ds))%list
  ∧ files w' = files w ∧ sent w' = sent w ∧ crashed w' = None
  ∧ timer w' = timer w ∧ kills w' = kills w ∧ timedOut w' = timedOut w.
Proof.
  revert w. induction ds as [|d ds IH]; intros w Hc.
  - cbn. by rewrite app_nil_r.
  - cbn zeta.
    change (Transcode.run j (Stderr <$> d :: ds) w)
      with (Transcode.run j (Stderr <$> ds) (Transcode.dispatch j (Stderr d) w)).
    destruct w as [fs st ct sn co sp ti tf ki cr]. simpl in Hc. subst.
    destruct (IH (Transcode.dispatch j (Stderr d) (World fs st ct sn co sp ti tf ki None)))
      as (H1 & H2 & H3 & H4 & H5 & H6 & H7); [done|].
    rewrite H1, H2, H3, H4, H5, H6, H7. cbn. by rewrite <-app_assoc.
Qed.

(** X17: the encoder's stderr is drained chunk by chunk: each chunk becomes
    one console line [ffmpeg: <chunk>], in the order of arrival ([/transcode]
    trims the chunk first), and draining changes neither the temp directory
    nor the answer. *)
Theorem X17_stderr_is_logged_in_order cfg up q f d1 d2 fs (ds : list string) :
  let rt := transcode_request cfg (Request (Some up) q f) d1 d2 None (Stderr <$> ds) fs in
  let ra := extract_request cfg (Request (Some up) q f) d1 d2 None (Stderr <$> ds) fs in
  console ra.2 = ((λ d, "ffmpeg: " +:+ d) <$> ds)
  ∧ console rt.2
    = (console (transcode_request cfg (Request (Some up) q f) d1 d2 None [] fs).2
       ++ ((λ d, "ffmpeg: " +:+ trim d) <$> ds))%list
  ∧ files ra.2 = <[upload_path (tmpDir cfg) d1 (inputExt (originalname up)) := buffer up]> fs
  ∧ files rt.2 = <[upload_path (tmpDir cfg) d1 (inputExt (originalname up)) := buffer up]> fs
  ∧ sent ra.2 = None ∧ sent rt.2 = None.
Proof.
  intros rt ra. subst rt ra. unfold transcode_request, extract_request.
  rewrite !transcode_handle_spawned, extract_handle_spawned. cbn [snd].
  destruct (extract_stderr_console (extract_job cfg up f d1 d2) ds
              (extract_world cfg up f d1 d2 fs)) as (A1 & A2 & A3 & _); [reflexivity|].
  destruct (transcode_stderr_console (transcode_job cfg up q d1 d2) ds
              (transcode_world cfg up q d1 d2 fs)) as (T1 & T2 & T3 & _); [reflexivity|].
  rewrite A1, A2, A3, T1, T2, T3. split_and!; reflexivity.
Qed.

(** X18: the timer of [/transcode] is armed with 300000 ms, and stderr chunks
    do not disturb it: when it expires while the encoder is still running,
    the encoder is signalled once, the [timedOut] flag is set, one console
    line reports the timeout, and the request is not answered yet. *)
Theorem X18_transcode_deadline_signals cfg up q f d1 d2 fs (ds : list string) :
  let r0 := transcode_request cfg (Request (Some up) q f) d1 d2 None (Stderr <$> ds) fs in
  let r := transcode_request cfg (Request (Some up) q f) d1 d2 None
             ((Stderr <$> ds) ++ [Timeout])%list fs in
  timer r0.2 = Some 300000 ∧ kills r0.2 = 0%nat ∧ timedOut r0.2 = false
  ∧ timer r.2 = None ∧ kills r.2 = 1%nat ∧ timedOut r.2 = true
  ∧ last (console r.2) = Some "FFmpeg timeout after 5 minutes"
  ∧ sent r.2 = None ∧ crashed r.2 = None.
Proof.
  intros r0 r. subst r0 r. unfold transcode_request.
  rewrite !transcode_handle_spawned. cbn [snd]. rewrite transcode_run_app.
  destruct (transcode_stderr_console (transcode_job cfg up q d1 d2) ds
              (transcode_world cfg up q d1 d2 fs))
    as (_ & _ & T3 & T4 & T5 & T6 & T7); [reflexivity|].
  set (w := Transcode.run _ (Stderr <$> ds) _) in *.
  rewrite T5, T6, T7. split_and!; try reflexivity.
  all: clearbody w; destruct w as [fs' st ct sn co sp ti tf ki cr];
    simpl in *; subst; cbn; try reflexivity.
  apply last_snoc.
Qed.
